(** * Website fraud detection: the URL heuristic engine

    A shallow embedding of the scoring engine of the repository's script
    ([levenshtein], [getHostname], [analyzeURL] and the three reference
    lists) together with the properties its specification states.

    JavaScript strings are modelled as [string]: one [ascii] per code unit,
    which covers the code units below 256.  Numbers that the script only
    uses as counters, lengths and scores are [nat] or [Z]. *)

From Stdlib Require Import ZArith Lia Bool Ascii String.
From stdpp Require Import base list strings.

Local Open Scope Z_scope.

(** ** Completions: a call returns normally or throws *)

Inductive exn : Type := TypeError.

Inductive completion (A : Type) : Type :=
| Normal (a : A)
| Throw (e : exn).
Arguments Normal {A} a.
Arguments Throw {A} e.

#[global] Instance completion_ret : MRet completion := fun A a => Normal a.
#[global] Instance completion_bind : MBind completion :=
  fun A B f m => match m with Normal a => f a | Throw e => Throw e end.

(** [for (const i of l) body] over a state threaded through the iterations. *)
Fixpoint forM {S : Type} (l : list nat) (body : nat -> S -> completion S) (s : S)
  : completion S :=
  match l with
  | [] => Normal s
  | i :: l' => s' ← body i s; forM l' body s'
  end.

(** ** Characters and strings of the script *)

Module Js.

Definition code (c : ascii) : nat := nat_of_ascii c.

Definition between (lo hi : nat) (c : ascii) : bool :=
  (lo <=? code c)%nat && (code c <=? hi)%nat.

Definition isDigit (c : ascii) : bool := between 48 57 c.
Definition isUpper (c : ascii) : bool := between 65 90 c.
Definition isLower (c : ascii) : bool := between 97 122 c.
Definition isAlpha (c : ascii) : bool := isUpper c || isLower c.
Definition isHex (c : ascii) : bool :=
  isDigit c || between 65 70 c || between 97 102 c.
(** [\w] *)
Definition isWord (c : ascii) : bool :=
  isAlpha c || isDigit c || Ascii.eqb c "_".
Definition isChar (x : ascii) (c : ascii) : bool := Ascii.eqb c x.

Definition dquote : ascii := "034".

(** [String.prototype.toLowerCase] on code units below 256: the letters A-Z
    and the Latin-1 capitals U+00C0-U+00DE (U+00D7 is the multiplication
    sign) move 32 places up, every other code unit stays. *)
Definition lowerChar (c : ascii) : ascii :=
  if isUpper c || (between 192 222 c && negb (code c =? 215)%nat)
  then ascii_of_nat (code c + 32) else c.

Fixpoint toLowerCase (s : string) : string :=
  match s with
  | EmptyString => EmptyString
  | String c s' => String (lowerChar c) (toLowerCase s')
  end.

(** [s.startsWith(p)] *)
Fixpoint startsWith (s p : string) {struct p} : bool :=
  match p with
  | EmptyString => true
  | String c p' =>
      match s with
      | EmptyString => false
      | String d s' => Ascii.eqb c d && startsWith s' p'
      end
  end.

(** [s.includes(t)] *)
Fixpoint includes (s t : string) : bool :=
  startsWith s t ||
  match s with
  | EmptyString => false
  | String _ s' => includes s' t
  end.

(** [s.endsWith(t)] *)
Fixpoint endsWith (s t : string) : bool :=
  String.eqb s t ||
  match s with
  | EmptyString => false
  | String _ s' => endsWith s' t
  end.

(** [s.replace(/x/g, y)] for a one-character pattern and replacement. *)
Fixpoint replaceAll (x y : ascii) (s : string) : string :=
  match s with
  | EmptyString => EmptyString
  | String c s' => String (if Ascii.eqb c x then y else c) (replaceAll x y s')
  end.

(** [s.replace(/[cls]/g, E)] with [E] the empty string *)
Fixpoint remove (cls : ascii -> bool) (s : string) : string :=
  match s with
  | EmptyString => EmptyString
  | String c s' => if cls c then remove cls s' else String c (remove cls s')
  end.

(** [(s.match(/[cls]/g) || []).length] *)
Fixpoint matchCount (cls : ascii -> bool) (s : string) : nat :=
  match s with
  | EmptyString => 0
  | String c s' => ((if cls c then 1 else 0) + matchCount cls s')%nat
  end.

(** [s.split(sep)] for a non-empty separator: the pieces between the
    occurrences of [sep], found from left to right without overlap.
    [skip] counts the characters of the occurrence being stepped over and
    [piece] is the piece read so far. *)
Fixpoint splitFrom (sep : string) (skip : nat) (piece : string) (s : string)
  : list string :=
  match s with
  | EmptyString => [piece]
  | String c s' =>
      match skip with
      | S k => splitFrom sep k piece s'
      | O =>
          if startsWith s sep
          then piece :: splitFrom sep (String.length sep - 1) EmptyString s'
          else splitFrom sep 0 (piece +:+ String c EmptyString) s'
      end
  end.

Fixpoint chars (s : string) : list string :=
  match s with
  | EmptyString => []
  | String c s' => String c EmptyString :: chars s'
  end.

Definition split (s sep : string) : list string :=
  if String.eqb sep EmptyString then chars s else splitFrom sep 0 EmptyString s.

(** [x || E] for [x] a string or [undefined] and [E] the empty string *)
Definition orEmpty (x : option string) : string := default EmptyString x.

End Js.

(** ** Regular expressions

    The patterns of the script use literals, classes, alternation and
    bounded or unbounded repetition only, so [RegExp.prototype.test] is
    membership in a regular language, decided here with derivatives. *)

Module Re.

Inductive regex : Type :=
| Never
| Empty
| Class (cls : ascii -> bool)
| Seq (r s : regex)
| Alt (r s : regex)
| Star (r : regex).

Fixpoint nullable (r : regex) : bool :=
  match r with
  | Never => false
  | Empty => true
  | Class _ => false
  | Seq r s => nullable r && nullable s
  | Alt r s => nullable r || nullable s
  | Star _ => true
  end.

Definition seq' (r s : regex) : regex :=
  match r, s with
  | Never, _ => Never
  | _, Never => Never
  | Empty, _ => s
  | _, _ => Seq r s
  end.

Definition alt' (r s : regex) : regex :=
  match r, s with
  | Never, _ => s
  | _, Never => r
  | _, _ => Alt r s
  end.

Fixpoint deriv (c : ascii) (r : regex) : regex :=
  match r with
  | Never => Never
  | Empty => Never
  | Class cls => if cls c then Empty else Never
  | Seq r s =>
      if nullable r then alt' (seq' (deriv c r) s) (deriv c s)
      else seq' (deriv c r) s
  | Alt r s => alt' (deriv c r) (deriv c s)
  | Star r => seq' (deriv c r) (Star r)
  end.

Fixpoint matches (r : regex) (s : string) : bool :=
  match s with
  | EmptyString => nullable r
  | String c s' => matches (deriv c r) s'
  end.

Fixpoint Lit (s : string) : regex :=
  match s with
  | EmptyString => Empty
  | String c s' => Seq (Class (Js.isChar c)) (Lit s')
  end.

Definition Plus (r : regex) : regex := Seq r (Star r).
Definition Opt (r : regex) : regex := Alt r Empty.
Fixpoint Times (n : nat) (r : regex) : regex :=
  match n with O => Empty | S n' => Seq r (Times n' r) end.
Fixpoint UpTo (n : nat) (r : regex) : regex :=
  match n with O => Empty | S n' => Opt (Seq r (UpTo n' r)) end.
(** [r{lo,hi}] *)
Definition Range (lo hi : nat) (r : regex) : regex :=
  Seq (Times lo r) (UpTo (hi - lo) r).

Definition anything : regex := Star (Class (fun _ => true)).

(** [/^r$/.test(s)], [/^r/.test(s)] and [/r/.test(s)] *)
Definition testWhole (r : regex) (s : string) : bool := matches r s.
Definition testStart (r : regex) (s : string) : bool := matches (Seq r anything) s.
Definition testAnywhere (r : regex) (s : string) : bool :=
  matches (Seq anything (Seq r anything)) s.

End Re.

(** ** Edit distance *)

(** A slot of the table holds a number, or nothing: [None] stands for a value
    that is not a number, [undefined] read from an empty slot or the [NaN]
    computed from it; [+], [Math.min], [/] and [<=] treat both alike. *)
Abbreviation num := (option nat).
Abbreviation table := (list (list num)).

Definition addNum (x : num) (k : nat) : num := (fun v => (v + k)%nat) <$> x.

(** [Math.min(x, y, z)] *)
Definition min3 (x y z : num) : num :=
  x ← x; y ← y; z ← z; Some (Nat.min x (Nat.min y z)).

(** [Array.from({ length: m + 1 }, () => new Array(n + 1))]: every row is an
    array of its own whose slots are empty. *)
Definition newTable (m n : nat) : table :=
  replicate (m + 1) (replicate (n + 1) None).

(** [row[j] = v]: an index past the end extends the array. *)
Definition writeSlot (row : list num) (j : nat) (v : num) : list num :=
  if decide (j < length row)%nat then <[j := v]> row
  else row ++ replicate (j - length row) None ++ [v].

(** [dp[i][j] = v] throws when [dp[i]] is [undefined]. *)
Definition store (dp : table) (i j : nat) (v : num) : completion table :=
  match dp !! i with
  | None => Throw TypeError
  | Some row => Normal (<[i := writeSlot row j v]> dp)
  end.

(** Reading [dp[i][j]] throws when [dp[i]] is [undefined]. *)
Definition load (dp : table) (i j : nat) : completion num :=
  match dp !! i with
  | None => Throw TypeError
  | Some row => Normal (mjoin (row !! j))
  end.

(** [a[i]] is [undefined] past the end of [a]. *)
Definition charAt (a : string) (i : nat) : option ascii := String.get i a.

(** The body of the two nested loops:
    [const cost = a[i - 1] === b[j - 1] ? 0 : 1;
     dp[i][j] = Math.min(dp[i-1][j]+1, dp[i][j-1]+1, dp[i-1][j-1]+cost);] *)
Definition relax (a b : string) (i j : nat) (dp : table) : completion table :=
  let cost :=
    if bool_decide (charAt a (i - 1) = charAt b (j - 1)) then 0%nat else 1%nat in
  up ← load dp (i - 1) j;
  left ← load dp i (j - 1);
  diag ← load dp (i - 1) (j - 1);
  store dp i j (min3 (addNum up 1) (addNum left 1) (addNum diag cost)).

(** Levenshtein distance for typo-squatting check *)
Definition levenshtein (a b : string) : completion num :=
  if String.eqb a EmptyString then Normal (Some (String.length b)) else
  if String.eqb b EmptyString then Normal (Some (String.length a)) else
  let m := String.length a in
  let n := String.length b in
  let dp := newTable m n in
  dp ← forM (seq 0 (m + 1)) (fun i dp => store dp i 0 (Some i)) dp;
  dp ← forM (seq 0 (n + 1)) (fun j dp => store dp 0 j (Some j)) dp;
  dp ← forM (seq 1 m) (fun i dp => forM (seq 1 n) (relax a b i) dp) dp;
  load dp m n.

(** *** What an edit distance is

    One edit inserts, deletes or replaces a single character anywhere in the
    text; [edits k s t] says that [k] edits in a row turn [s] into [t]. *)

Inductive edit : list ascii -> list ascii -> Prop :=
| edit_insert c s : edit s (c :: s)
| edit_delete c s : edit (c :: s) s
| edit_replace c d s : edit (c :: s) (d :: s)
| edit_inside c s t : edit s t -> edit (c :: s) (c :: t).

Inductive edits : nat -> list ascii -> list ascii -> Prop :=
| edits_done s : edits 0 s s
| edits_step k s t u : edit s t -> edits k t u -> edits (S k) s u.

(** [d] is the least number of edits that turn [s] into [t]. *)
Definition editDistance (s t : list ascii) (d : nat) : Prop :=
  edits d s t /\ forall k, edits k s t -> (d <= k)%nat.

Definition cost (x y : ascii) : nat := if bool_decide (x = y) then 0%nat else 1%nat.

(** The recurrence of the table, read from the front of both texts. *)
Fixpoint lev (a b : list ascii) : nat :=
  match a with
  | [] => length b
  | x :: a' =>
      (fix levRow (b : list ascii) : nat :=
         match b with
         | [] => length a
         | y :: b' =>
             Nat.min (lev a' b + 1)
               (Nat.min (levRow b' + 1)
                  (lev a' b' + cost x y))
         end) b
  end.

(** *** What the table holds while it is filled *)

(** The slot [dp[i][j]], when the row and the slot exist. *)
Definition cell (dp : table) (i j : nat) : option num := row ← dp !! i; row !! j.

(** [m + 1] rows of [n + 1] slots each. *)
Definition shaped (m n : nat) (dp : table) : Prop :=
  length dp = (m + 1)%nat /\
  forall i row, dp !! i = Some row -> length row = (n + 1)%nat.

(** The distance between the first [i] characters of [a] and the first [j]
    characters of [b]; the recurrence runs from the last character back. *)
Definition prefixDistance (a b : list ascii) (i j : nat) : nat :=
  lev (rev (take i a)) (rev (take j b)).

(** The slots selected by [P] hold the distance of their prefixes. *)
Definition filled (a b : list ascii) (P : nat -> nat -> Prop) (dp : table) : Prop :=
  shaped (length a) (length b) dp /\
  forall i j, (i <= length a)%nat -> (j <= length b)%nat -> P i j ->
    cell dp i j = Some (Some (prefixDistance a b i j)).

(** ** The platform's URL parser

    [new URL(s).hostname] is supplied by the platform and follows the WHATWG
    URL Standard.  The engine below takes the parser as a parameter, and what
    is proved of the engine holds for every parser.  [Url.hostname] is a model
    of the platform's parser to run the examples with.  It follows the
    Standard without a base URL: the cleaning of the input, the scheme state,
    the authority, host and port states, the file states, and the host parser
    with percent-decoding, ASCII lower-casing, the forbidden code points, the
    ends-in-a-number check and the IPv4 parser; an opaque host is
    percent-encoded.  Two parts of the Standard are left out, the IPv6 parser
    and IDNA processing: a host in brackets, and a host of a special scheme
    that once percent-decoded holds a code unit above 127 or a label that
    starts with xn--, are answered as a host that does not parse.  A failure
    of the parser is the [TypeError] of the constructor. *)

Module Url.

Definition isC0OrSpace (c : ascii) : bool := (Js.code c <=? 32)%nat.
Definition isTabOrNewline (c : ascii) : bool :=
  (Js.code c =? 9)%nat || (Js.code c =? 10)%nat || (Js.code c =? 13)%nat.
Definition isSlash (c : ascii) : bool := Js.isChar "/" c || Js.isChar "\" c.

Fixpoint dropWhile (p : ascii -> bool) (l : list ascii) : list ascii :=
  match l with
  | [] => []
  | c :: l' => if p c then dropWhile p l' else l
  end.

Fixpoint takeWhile (p : ascii -> bool) (l : list ascii) : list ascii :=
  match l with
  | [] => []
  | c :: l' => if p c then c :: takeWhile p l' else []
  end.

(** Leading and trailing C0 controls and spaces go, then every tab and newline. *)
Definition clean (l : list ascii) : list ascii :=
  List.filter (fun c => negb (isTabOrNewline c))
    (rev (dropWhile isC0OrSpace (rev (dropWhile isC0OrSpace l)))).

Definition isSchemeChar (c : ascii) : bool :=
  Js.isAlpha c || Js.isDigit c || Js.isChar "+" c || Js.isChar "-" c || Js.isChar "." c.

Fixpoint schemeRest (l scheme : list ascii) : option (list ascii * list ascii) :=
  match l with
  | [] => None
  | c :: l' =>
      if Js.isChar ":" c then Some (scheme, l')
      else if isSchemeChar c then schemeRest l' (scheme ++ [Js.lowerChar c])
      else None
  end.

(** Scheme start state and scheme state; without a base URL a missing scheme
    is a failure. *)
Definition parseScheme (l : list ascii) : option (list ascii * list ascii) :=
  match l with
  | c :: l' => if Js.isAlpha c then schemeRest l' [Js.lowerChar c] else None
  | [] => None
  end.

Definition isSpecial (scheme : string) : bool :=
  bool_decide (scheme ∈ ["http"; "https"; "ws"; "wss"; "ftp"; "file"]).

(** Strictly splitting on [c]. *)
Fixpoint splitOn (c : ascii) (l : list ascii) : list (list ascii) :=
  match l with
  | [] => [[]]
  | x :: l' =>
      if Js.isChar c x then [] :: splitOn c l'
      else match splitOn c l' with
           | p :: ps => (x :: p) :: ps
           | [] => [[x]]
           end
  end.

Definition digitValue (c : ascii) : N :=
  if Js.isDigit c then N.of_nat (Js.code c - 48)
  else if Js.between 65 70 c then N.of_nat (Js.code c - 55)
  else N.of_nat (Js.code c - 87).

Definition isRadixDigit (radix : N) (c : ascii) : bool :=
  Js.isHex c && (digitValue c <? radix)%N.

Definition valueIn (radix : N) (l : list ascii) : N :=
  fold_left (fun acc c => (acc * radix + digitValue c)%N) l 0%N.

(** IPv4 number parser *)
Definition parseIPv4Number (part : list ascii) : option N :=
  match part with
  | [] => None
  | _ =>
      let '(radix, digits) :=
        match part with
        | z :: x :: rest =>
            if Js.isChar "0" z && (Js.isChar "x" x || Js.isChar "X" x) then (16%N, rest)
            else if Js.isChar "0" z then (8%N, x :: rest)
            else (10%N, part)
        | _ => (10%N, part)
        end in
      if forallb (isRadixDigit radix) digits then Some (valueIn radix digits) else None
  end.

Definition dropEmptyLast (parts : list (list ascii)) : list (list ascii) :=
  match rev parts with
  | [] :: (_ :: _) as before => rev before
  | _ => parts
  end.

(** Ends-in-a-number checker *)
Definition endsInNumber (host : list ascii) : bool :=
  let parts := splitOn "." host in
  match rev parts with
  | [[]] => false
  | _ =>
      match rev (dropEmptyLast parts) with
      | last :: _ =>
          (negb (bool_decide (last = [])) && forallb Js.isDigit last)
          || bool_decide (is_Some (parseIPv4Number last))
      | [] => false
      end
  end.

Fixpoint decimalDigits (fuel : nat) (n : N) (acc : list ascii) : list ascii :=
  match fuel with
  | O => acc
  | S fuel' =>
      let d := ascii_of_N (48 + n mod 10) in
      if (n <? 10)%N then d :: acc else decimalDigits fuel' (n / 10) (d :: acc)
  end.

Definition decimal (n : N) : list ascii := decimalDigits 3 n [].

Definition serializeIPv4 (ip : N) : list ascii :=
  decimal (ip / 16777216 mod 256) ++ ["."%char] ++ decimal (ip / 65536 mod 256)
  ++ ["."%char] ++ decimal (ip / 256 mod 256) ++ ["."%char] ++ decimal (ip mod 256).

(** IPv4 parser, then the host serializer *)
Definition parseIPv4 (host : list ascii) : option (list ascii) :=
  let parts := dropEmptyLast (splitOn "." host) in
  if (4 <? length parts)%nat then None else
  numbers ← mapM parseIPv4Number parts;
  match rev numbers with
  | [] => None
  | last :: before =>
      if existsb (fun n => (255 <? n)%N) before then None
      else if (256 ^ N.of_nat (5 - length numbers) <=? last)%N then None
      else
        let high :=
          fold_left (fun acc n => (acc * 256 + n)%N) (rev before) 0%N in
        Some (serializeIPv4
                (high * 256 ^ N.of_nat (4 - length before) + last)%N)
  end.

Definition isForbiddenHost (c : ascii) : bool :=
  bool_decide (Js.code c ∈
    [0; 9; 10; 13; 32; 35; 47; 58; 60; 62; 63; 64; 91; 92; 93; 94; 124]%nat).

Definition isForbiddenDomain (c : ascii) : bool :=
  isForbiddenHost c || (Js.code c <=? 31)%nat
  || (Js.code c =? 37)%nat || (Js.code c =? 127)%nat.

Fixpoint percentDecode (l : list ascii) : list ascii :=
  match l with
  | [] => []
  | c :: l' =>
      match l' with
      | h :: (k :: _) =>
          if Js.isChar "%" c && Js.isHex h && Js.isHex k
          then ascii_of_N (digitValue h * 16 + digitValue k) :: skip2 l'
          else c :: percentDecode l'
      | _ => c :: percentDecode l'
      end
  end
with skip2 (l : list ascii) : list ascii :=
  match l with
  | _ :: l' => match l' with _ :: l'' => percentDecode l'' | [] => [] end
  | [] => []
  end.

Definition hexDigit (n : N) : ascii :=
  if (n <? 10)%N then ascii_of_N (48 + n) else ascii_of_N (55 + n).

Definition percentByte (n : N) : list ascii :=
  ["%"%char; hexDigit (n / 16); hexDigit (n mod 16)].

(** UTF-8 percent-encoding of a code unit with the C0 control set. *)
Definition percentEncodeC0 (c : ascii) : list ascii :=
  let n := N_of_ascii c in
  if (n <? 32)%N || (n =? 127)%N then percentByte n
  else if (n <? 128)%N then [c]
  else percentByte (192 + n / 64) ++ percentByte (128 + n mod 64).

Definition isPunycodeLabel (label : list ascii) : bool :=
  match label with
  | x :: n :: d :: e :: _ =>
      (Js.isChar "x" x || Js.isChar "X" x) && (Js.isChar "n" n || Js.isChar "N" n) && Js.isChar "-" d && Js.isChar "-" e
  | _ => false
  end.

(** Host parser *)
Definition parseHost (opaque : bool) (input : list ascii) : option (list ascii) :=
  match input with
  | "["%char :: _ => None
  | _ =>
      if opaque then
        if existsb isForbiddenHost input then None
        else Some (concat (map percentEncodeC0 input))
      else
        let domain := percentDecode input in
        if existsb (fun c => (127 <? Js.code c)%nat) domain
           || existsb isPunycodeLabel (splitOn "." domain) then None
        else
          let asciiDomain := map Js.lowerChar domain in
          if bool_decide (asciiDomain = []) then None
          else if existsb isForbiddenDomain asciiDomain then None
          else if endsInNumber asciiDomain then parseIPv4 asciiDomain
          else Some asciiDomain
  end.

(** The text before the first [:] outside brackets, and the text after it. *)
Fixpoint splitPort (inside : bool) (l host : list ascii)
  : list ascii * option (list ascii) :=
  match l with
  | [] => (host, None)
  | c :: l' =>
      if Js.isChar ":" c && negb inside then (host, Some l')
      else splitPort (if Js.isChar "[" c then true else if Js.isChar "]" c then false else inside)
             l' (host ++ [c])
  end.

Definition afterLastAt (authority : list ascii) : list ascii :=
  default [] (head (rev (splitOn "@" authority))).

(** Authority state, host state and port state *)
Definition authorityHost (special : bool) (rest : list ascii) : option (list ascii) :=
  let stop c := Js.isChar "/" c || Js.isChar "?" c || Js.isChar "#" c || (special && Js.isChar "\" c) in
  let authority := takeWhile (fun c => negb (stop c)) rest in
  let hostport := afterLastAt authority in
  if existsb (Js.isChar "@") authority && bool_decide (hostport = []) then None else
  match splitPort false hostport [] with
  | (host, Some port) =>
      if bool_decide (host = []) then None else
      h ← parseHost (negb special) host;
      if negb (forallb Js.isDigit port) then None
      else if (65535 <? valueIn 10 port)%N then None
      else Some h
  | (host, None) =>
      if special && bool_decide (host = []) then None
      else parseHost (negb special) host
  end.

Definition isDriveLetter (l : list ascii) : bool :=
  match l with
  | [c; d] => Js.isAlpha c && (Js.isChar ":" d || Js.isChar "|" d)
  | _ => false
  end.

(** File state, file slash state and file host state *)
Definition fileHost (rest : list ascii) : option (list ascii) :=
  match rest with
  | c :: d :: rest' =>
      if isSlash c && isSlash d then
        let stop c := isSlash c || Js.isChar "?" c || Js.isChar "#" c in
        let buffer := takeWhile (fun c => negb (stop c)) rest' in
        if isDriveLetter buffer || bool_decide (buffer = []) then Some []
        else
          h ← parseHost false buffer;
          Some (if bool_decide (h = list_ascii_of_string "localhost") then [] else h)
      else Some []
  | _ => Some []
  end.

Definition parse (input : string) : option string :=
  '(scheme, rest) ← parseScheme (clean (list_ascii_of_string input));
  string_of_list_ascii <$>
    (if bool_decide (scheme = list_ascii_of_string "file") then fileHost rest
     else if isSpecial (string_of_list_ascii scheme)
     then authorityHost true (dropWhile isSlash rest)
     else match rest with
          | c :: d :: rest' =>
              if Js.isChar "/" c && Js.isChar "/" d then authorityHost false rest' else Some []
          | _ => Some []
          end).

(** [new URL(input).hostname] *)
Definition hostname (input : string) : completion string :=
  match parse input with
  | Some host => Normal host
  | None => Throw TypeError
  end.

End Url.

(** ** The reference lists *)

(** Popular domains for typo detection *)
Definition POPULAR_DOMAINS : list string :=
  [ "google.com"; "facebook.com"; "youtube.com"; "amazon.com";
    "twitter.com"; "linkedin.com"; "apple.com"; "github.com";
    "microsoft.com"; "paypal.com"; "wikipedia.org"; "instagram.com" ].

(** Suspicious TLDs commonly used by scammers *)
Definition SUSPICIOUS_TLDS : list string :=
  [ ".tk"; ".ml"; ".ga"; ".cf"; ".gq"; ".xyz"; ".top"; ".biz" ].

(** Suspicious keywords in URL *)
Definition FRAUD_KEYWORDS : list string :=
  [ "login"; "verify"; "update"; "secure"; "bank"; "account";
    "paypal"; "confirm"; "password"; "signin"; "click"; "free";
    "winner"; "claim"; "urgent" ].

(** The three lists as one configuration of the engine. *)
Record Config : Type := {
  popularDomains : list string;
  suspiciousTLDs : list string;
  fraudKeywords : list string
}.

Definition defaultConfig : Config :=
  {| popularDomains := POPULAR_DOMAINS;
     suspiciousTLDs := SUSPICIOUS_TLDS;
     fraudKeywords := FRAUD_KEYWORDS |}.

(** ** The result of an analysis *)

Inductive Verdict : Type := Safe | Suspicious | Fraudulent.

Record AnalysisResult : Type := {
  score : Z;
  verdict : Verdict;
  reasons : list string
}.

(** The two locals [reasons] and [score] that the rules update. *)
Module Acc.
Record t : Type := make { reasons : list string; score : Z }.
End Acc.

(** [reasons.push(reason); score += weight;] *)
Definition push (reason : string) (weight : Z) (st : Acc.t) : Acc.t :=
  Acc.make (Acc.reasons st ++ [reason]) (Acc.score st + weight).

(** [if (test) { reasons.push(reason); score += weight; }] *)
Definition flag (test : bool) (reason : string) (weight : Z) (st : Acc.t) : Acc.t :=
  if test then push reason weight st else st.

(** ** The patterns of the script *)

Module Pattern.
Import Re.

Definition notSpaceOrQuote : regex :=
  Class (fun c => negb (Js.isChar " " c || Js.isChar Js.dquote c)).

(** [/^[a-zA-Z]+:\/\//] *)
Definition scheme : regex := Seq (Plus (Class Js.isAlpha)) (Lit "://").

(** [/^(ftp|http|https):\/\/[^ Q]+$/], where Q is the double quote *)
Definition url : regex :=
  Seq (Alt (Lit "ftp") (Alt (Lit "http") (Lit "https")))
    (Seq (Lit "://") (Plus notSpaceOrQuote)).

(** [/^[^ Q]+\.[^ Q]+$/], where Q is the double quote *)
Definition dotted : regex :=
  Seq (Plus notSpaceOrQuote) (Seq (Lit ".") (Plus notSpaceOrQuote)).

(** [/^\d{1,3}(\.\d{1,3}){3}$/] *)
Definition ipv4 : regex :=
  Seq (Range 1 3 (Class Js.isDigit))
    (Times 3 (Seq (Lit ".") (Range 1 3 (Class Js.isDigit)))).

(** [/%[0-9A-Fa-f]{2}/] *)
Definition percent : regex := Seq (Lit "%") (Times 2 (Class Js.isHex)).

(** [/@/] *)
Definition at_sign : regex := Lit "@".

End Pattern.

(** ** The texts of the reasons *)

Module Reason.

Definition quote : string := String Js.dquote EmptyString.

Definition malformed : string := "Malformed or missing protocol.".
Definition noHostname : string := "Cannot parse hostname.".
Definition rawIP : string := "Uses raw IP address.".
Definition longURL : string := "Very long URL.".
Definition longHostname : string := "Very long hostname.".
Definition subdomains : string := "Multiple subdomains.".
Definition tld (tld : string) : string := "Suspicious TLD: " +:+ tld.
Definition percent : string := "Contains percent-encoding.".
Definition at_sign : string := "Contains '@' symbol.".
Definition hyphens : string := "Many hyphens in domain.".
Definition digits : string := "Many digits in domain.".
Definition keyword (kw : string) : string :=
  "Contains keyword " +:+ quote +:+ kw +:+ quote +:+ ".".
Definition typosquat (pd : string) : string :=
  "Looks similar to popular site " +:+ quote +:+ pd +:+ quote
  +:+ " (possible typosquat).".
Definition longPath : string := "Long path or query.".
Definition manyParams : string := "Many query parameters.".

End Reason.

(** ** The engine *)

(** [if (score >= 8) verdict = "Fraudulent"; else if (score >= 4) verdict =
    "Suspicious";] over the initial ["Safe"] *)
Definition verdictOf (score : Z) : Verdict :=
  if 8 <=? score then Fraudulent
  else if 4 <=? score then Suspicious
  else Safe.

(** [dist / size <= 0.25].  For integers below 2^53 the rounded quotient is
    at most 0.25 exactly when [4 * dist <= size]; a division by zero gives
    [NaN] or [Infinity] and a [dist] that is not a number gives [NaN], for
    which the comparison is false. *)
Definition atMostQuarter (dist : num) (size : nat) : bool :=
  match dist with
  | Some d => negb (size =? 0)%nat && (4 * d <=? size)%nat
  | None => false
  end.

(** Digits 0, 1 and 3 become the letters o, l and e, then everything that
    is neither a word character nor a dot is removed: the four chained
    [replace] calls of the script. *)
Definition normalize (hostname : string) : string :=
  Js.remove (fun c => negb (Js.isWord c || Js.isChar "." c))
    (Js.replaceAll "3" "e" (Js.replaceAll "1" "l" (Js.replaceAll "0" "o" hostname))).

(** The format check: the text fails both the pattern with a scheme and the
    pattern of a bare dotted name. *)
Definition badFormat (url : string) : bool :=
  negb (Re.testWhole Pattern.url url) && negb (Re.testWhole Pattern.dotted url).

(** [/[?&]/] *)
Definition isSeparator (c : ascii) : bool := Js.isChar "?" c || Js.isChar "&" c.

(** The test of the keyword loop. *)
Definition mentions (url kw : string) : bool := Js.includes (Js.toLowerCase url) kw.

(** The test of the typosquat loop, on the distance that [levenshtein]
    returned. *)
Definition near (dist : num) (normalized pd : string) : bool :=
  atMostQuarter dist (Nat.max (String.length normalized) (String.length pd))
  && negb (String.eqb normalized pd).

Section Engine.

(** [new URL(s).hostname], which throws where the platform's parser fails. *)
Variable URL_hostname : string -> completion string.
Variable cfg : Config.

(** Extract hostname safely *)
Definition getHostname (url : string) : option string :=
  let tmp := if Re.testStart Pattern.scheme url then url else "http://" +:+ url in
  match URL_hostname tmp with
  | Normal hostname => Some (Js.toLowerCase hostname)
  | Throw _ => None
  end.

(** Suspicious TLD: the loop breaks at the first suffix that matches. *)
Fixpoint tldRule (hostname : string) (tlds : list string) (st : Acc.t) : Acc.t :=
  match tlds with
  | [] => st
  | tld :: rest =>
      if Js.endsWith hostname tld then push (Reason.tld tld) 3 st
      else tldRule hostname rest st
  end.

(** Suspicious keywords: every keyword of the list is tried. *)
Fixpoint keywordRule (url : string) (kws : list string) (st : Acc.t) : Acc.t :=
  match kws with
  | [] => st
  | kw :: rest =>
      keywordRule url rest
        (flag (mentions url kw) (Reason.keyword kw) 2 st)
  end.

(** Homograph detection: the loop breaks at the first domain that is close
    to the normalized hostname without being equal to it. *)
Fixpoint typosquatRule (normalized : string) (pds : list string) (st : Acc.t)
  : completion Acc.t :=
  match pds with
  | [] => Normal st
  | pd :: rest =>
      dist ← levenshtein normalized pd;
      if near dist normalized pd
      then Normal (push (Reason.typosquat pd) 4 st)
      else typosquatRule normalized rest st
  end.

(** [url.split(hostname)[1]], or the empty string when that is falsy *)
Definition pathOf (url hostname : string) : string :=
  Js.orEmpty (Js.split url hostname !! 1%nat).

(** The rules that run once the hostname is known. *)
Definition rules (url hostname : string) (st : Acc.t) : completion Acc.t :=
  let st := flag (Re.testWhole Pattern.ipv4 hostname) Reason.rawIP 5 st in
  let st := flag (100 <? String.length url)%nat Reason.longURL 2 st in
  let st := flag (50 <? String.length hostname)%nat Reason.longHostname 2 st in
  let st := flag (4 <=? length (Js.split hostname "."))%nat Reason.subdomains 2 st in
  let st := tldRule hostname (suspiciousTLDs cfg) st in
  let st := flag (Re.testAnywhere Pattern.percent url) Reason.percent 1 st in
  let st := flag (Re.testAnywhere Pattern.at_sign url) Reason.at_sign 4 st in
  let st := flag (2 <=? Js.matchCount (Js.isChar "-") hostname)%nat Reason.hyphens 1 st in
  let st := flag (3 <=? Js.matchCount Js.isDigit hostname)%nat Reason.digits 1 st in
  let st := keywordRule url (fraudKeywords cfg) st in
  st ← typosquatRule (normalize hostname) (popularDomains cfg) st;
  let path := pathOf url hostname in
  let st := flag (80 <? String.length path)%nat Reason.longPath 1 st in
  let st := flag (5 <=? Js.matchCount isSeparator path)%nat
              Reason.manyParams 1 st in
  Normal st.

(** [!hostname]: [null] and the empty string are both falsy. *)
Definition missing (hostname : option string) : bool :=
  match hostname with
  | Some h => String.eqb h EmptyString
  | None => true
  end.

(** Analyze URL and return verdict + reasons *)
Definition analyze (url : string) : completion AnalysisResult :=
  let st := Acc.make [] 0 in
  let st := flag (badFormat url) Reason.malformed 1 st in
  let hostname := getHostname url in
  if missing hostname then
    let st := push Reason.noHostname 3 st in
    Normal {| score := Acc.score st; verdict := Fraudulent; reasons := Acc.reasons st |}
  else
    st ← rules url (default EmptyString hostname) st;
    Normal {| score := Acc.score st;
              verdict := verdictOf (Acc.score st);
              reasons := Acc.reasons st |}.

End Engine.

(** The script as it runs: the platform's parser and the lists of the file. *)
Definition analyzeURL (url : string) : completion AnalysisResult :=
  analyze Url.hostname defaultConfig url.


(** ** Notions the properties are stated with *)

(** The order Safe < Suspicious < Fraudulent. *)
Definition severity (v : Verdict) : Z :=
  match v with Safe => 0 | Suspicious => 1 | Fraudulent => 2 end.

(** The weight of the rule that a reason text belongs to. *)
Definition weightOf (reason : string) : Z :=
  if Js.startsWith reason "Suspicious TLD: " then 3
  else if Js.startsWith reason ("Contains keyword " +:+ Reason.quote) then 2
  else if Js.startsWith reason ("Looks similar to popular site " +:+ Reason.quote) then 4
  else if String.eqb reason Reason.malformed then 1
  else if String.eqb reason Reason.noHostname then 3
  else if String.eqb reason Reason.rawIP then 5
  else if String.eqb reason Reason.longURL then 2
  else if String.eqb reason Reason.longHostname then 2
  else if String.eqb reason Reason.subdomains then 2
  else if String.eqb reason Reason.percent then 1
  else if String.eqb reason Reason.at_sign then 4
  else if String.eqb reason Reason.hyphens then 1
  else if String.eqb reason Reason.digits then 1
  else if String.eqb reason Reason.longPath then 1
  else if String.eqb reason Reason.manyParams then 1
  else 0.

Definition totalWeight (reasons : list string) : Z :=
  fold_right (fun reason total => weightOf reason + total) 0 reasons.

Definition isKeywordReason (reason : string) : bool :=
  Js.startsWith reason ("Contains keyword " +:+ Reason.quote).

Definition isTyposquatReason (reason : string) : bool :=
  Js.startsWith reason ("Looks similar to popular site " +:+ Reason.quote).

(** A domain of the list resembles the normalized hostname when the typosquat
    loop would stop at it. *)
Definition resembles (normalized pd : string) : bool :=
  match levenshtein normalized pd with
  | Normal dist => near dist normalized pd
  | Throw _ => false
  end.

(** *** The rules as a table of contributions

    The specification describes every rule as a predicate that yields no
    contribution or one, a reason text with its weight.  [contributions] lists
    what the rules after the hostname check contribute, in their order; the
    engine is compared with it below. *)

Definition contribution : Type := string * Z.

Definition when (test : bool) (reason : string) (weight : Z) : list contribution :=
  if test then [(reason, weight)] else [].

Definition tldContribution (hostname : string) (tlds : list string) : list contribution :=
  match List.find (Js.endsWith hostname) tlds with
  | Some tld => [(Reason.tld tld, 3)]
  | None => []
  end.

Definition keywordContributions (url : string) (kws : list string) : list contribution :=
  map (fun kw => (Reason.keyword kw, 2)) (List.filter (mentions url) kws).

Definition typosquatContribution (normalized : string) (pds : list string)
  : list contribution :=
  match List.find (resembles normalized) pds with
  | Some pd => [(Reason.typosquat pd, 4)]
  | None => []
  end.

Definition pathContributions (path : string) : list contribution :=
  when (80 <? String.length path)%nat Reason.longPath 1
  ++ when (5 <=? Js.matchCount isSeparator path)%nat Reason.manyParams 1.

Definition contributions (cfg : Config) (url hostname : string) : list contribution :=
  when (Re.testWhole Pattern.ipv4 hostname) Reason.rawIP 5
  ++ when (100 <? String.length url)%nat Reason.longURL 2
  ++ when (50 <? String.length hostname)%nat Reason.longHostname 2
  ++ when (4 <=? length (Js.split hostname "."))%nat Reason.subdomains 2
  ++ tldContribution hostname (suspiciousTLDs cfg)
  ++ when (Re.testAnywhere Pattern.percent url) Reason.percent 1
  ++ when (Re.testAnywhere Pattern.at_sign url) Reason.at_sign 4
  ++ when (2 <=? Js.matchCount (Js.isChar "-") hostname)%nat Reason.hyphens 1
  ++ when (3 <=? Js.matchCount Js.isDigit hostname)%nat Reason.digits 1
  ++ keywordContributions url (fraudKeywords cfg)
  ++ typosquatContribution (normalize hostname) (popularDomains cfg)
  ++ pathContributions (pathOf url hostname).

Definition pushAll (cs : list contribution) (st : Acc.t) : Acc.t :=
  fold_left (fun st c => push c.1 c.2 st) cs st.

Definition weights (cs : list contribution) : Z :=
  fold_right (fun c total => c.2 + total) 0 cs.

(** A contribution whose weight is the weight of its reason's rule. *)
Definition fair (c : contribution) : Prop := weightOf c.1 = c.2.


Fixpoint dropChars (n : nat) (s : string) : string :=
  match n, s with
  | S n', String _ s' => dropChars n' s'
  | _, _ => s
  end.

(** The path as the specification words it: the substring of the URL after
    the first occurrence of the hostname text. *)
Fixpoint afterFirstOccurrence (url hostname : string) : option string :=
  if Js.startsWith url hostname then Some (dropChars (String.length hostname) url)
  else match url with
       | EmptyString => None
       | String _ url' => afterFirstOccurrence url' hostname
       end.

(** ** The language of a pattern

    What a pattern matches, said without the matcher; the matcher is
    compared with it below. *)

Inductive lang : Re.regex -> string -> Prop :=
| lang_empty : lang Re.Empty EmptyString
| lang_class cls c : cls c = true -> lang (Re.Class cls) (String c EmptyString)
| lang_seq r s u v : lang r u -> lang s v -> lang (Re.Seq r s) (u +:+ v)
| lang_alt_l r s u : lang r u -> lang (Re.Alt r s) u
| lang_alt_r r s u : lang s u -> lang (Re.Alt r s) u
| lang_star_nil r : lang (Re.Star r) EmptyString
| lang_star_more r u v : lang r u -> lang (Re.Star r) v -> lang (Re.Star r) (u +:+ v).

Definition allAscii : list ascii := map ascii_of_nat (seq 0 256).

(** Every character of the class [q] is in the class [p]. *)
Definition classWithin (q p : ascii -> bool) : bool :=
  forallb (fun c => implb (q c) (p c)) allAscii.

(** No character is in both classes. *)
Definition classApart (q p : ascii -> bool) : bool :=
  forallb (fun c => negb (q c && p c)) allAscii.

(** A number of characters of the class [p] that every text of the pattern
    holds at least. *)
Fixpoint minCount (p : ascii -> bool) (r : Re.regex) : nat :=
  match r with
  | Re.Never | Re.Empty | Re.Star _ => 0
  | Re.Class q => if classWithin q p then 1 else 0
  | Re.Seq r s => minCount p r + minCount p s
  | Re.Alt r s => Nat.min (minCount p r) (minCount p s)
  end.

(** No text of the pattern holds a character of the class [p]. *)
Fixpoint avoids (p : ascii -> bool) (r : Re.regex) : bool :=
  match r with
  | Re.Never | Re.Empty => true
  | Re.Class q => classApart q p
  | Re.Seq r s | Re.Alt r s => avoids p r && avoids p s
  | Re.Star r => avoids p r
  end.

(** Every character of the text is in the class. *)
Fixpoint allChars (p : ascii -> bool) (s : string) : bool :=
  match s with
  | EmptyString => true
  | String c s' => p c && allChars p s'
  end.

Definition isSpaceOrQuote (c : ascii) : bool :=
  Js.isChar " " c || Js.isChar Js.dquote c.

Definition isTldReason (reason : string) : bool :=
  Js.startsWith reason "Suspicious TLD: ".

(** ** The page

    The listener of the form, at the end of the script.  The page is the part
    of the document that the listener reads and writes: the value of the
    input, the text and the style of the result, the element of the details,
    which the listener creates when it is not there, and the messages that
    [alert] has shown.  The elements that the script looks up by id are taken
    to be in the document. *)

Module Dom.

(** White space and line terminators among the code units below 256. *)
Definition isWhiteSpace (c : ascii) : bool :=
  Js.between 9 13 c || (Js.code c =? 32)%nat || (Js.code c =? 160)%nat.

Fixpoint trimStart (s : string) : string :=
  match s with
  | EmptyString => EmptyString
  | String c s' => if isWhiteSpace c then trimStart s' else s
  end.

Fixpoint trimEnd (s : string) : string :=
  match s with
  | EmptyString => EmptyString
  | String c s' =>
      match trimEnd s' with
      | EmptyString => if isWhiteSpace c then EmptyString else String c EmptyString
      | t => String c t
      end
  end.

(** [s.trim()] *)
Definition trim (s : string) : string := trimEnd (trimStart s).

(** [l.join(sep)] *)
Fixpoint join (sep : string) (l : list string) : string :=
  match l with
  | [] => EmptyString
  | [x] => x
  | x :: rest => x +:+ sep +:+ join sep rest
  end.

Definition newline : string := String "010" EmptyString.

(** The [pre] element of the details, with the style it gets when the
    listener creates it. *)
Record Details : Type := {
  textContent : string;
  textAlign : string;
  whiteSpace : string;
  marginTop : string;
  fontSize : string;
  color : string
}.

Record Page : Type := {
  urlInput : string;
  resultText : string;
  resultTextColor : string;
  resultBorder : string;
  resultBackground : string;
  resultHidden : bool;
  resultDetails : option Details;
  alerts : list string
}.

Definition verdictText (v : Verdict) : string :=
  match v with
  | Safe => "Safe"
  | Suspicious => "Suspicious"
  | Fraudulent => "Fraudulent"
  end.

Definition noPatterns : string := "No suspicious patterns detected.".

(** [analysis.reasons.length ? analysis.reasons.join(newline) : noPatterns] *)
Definition detailsText (reasons : list string) : string :=
  match reasons with
  | [] => noPatterns
  | _ => join newline reasons
  end.

(** The element of the details after the listener has run: the one of the
    page with a new text, or a new one. *)
Definition writeDetails (old : option Details) (text : string) : Details :=
  match old with
  | Some d =>
      {| textContent := text; textAlign := textAlign d; whiteSpace := whiteSpace d;
         marginTop := marginTop d; fontSize := fontSize d; color := color d |}
  | None =>
      {| textContent := text; textAlign := "left"; whiteSpace := "pre-wrap";
         marginTop := "12px"; fontSize := "0.95rem"; color := "#333" |}
  end.

(** Color coding *)
Definition paint (v : Verdict) : string * string * string :=
  match v with
  | Safe => ("green", "2px solid #c7f0d1", "#f0fff4")
  | Suspicious => ("orange", "2px solid #ffe6b3", "#fffaf0")
  | Fraudulent => ("red", "2px solid #f5c6cb", "#fff2f2")
  end.

Section Listener.

Variable analyzer : string -> completion AnalysisResult.

(** UI Integration: the listener of the submit event. *)
Definition onSubmit (page : Page) : completion Page :=
  let url := trim (urlInput page) in
  if String.eqb url EmptyString then
    Normal {| urlInput := urlInput page; resultText := resultText page;
              resultTextColor := resultTextColor page;
              resultBorder := resultBorder page;
              resultBackground := resultBackground page;
              resultHidden := resultHidden page;
              resultDetails := resultDetails page;
              alerts := alerts page ++ ["Please enter a URL."] |}
  else
    analysis ← analyzer url;
    let '(textColor, border, background) := paint (verdict analysis) in
    Normal {| urlInput := urlInput page;
              resultText := verdictText (verdict analysis);
              resultTextColor := textColor;
              resultBorder := border;
              resultBackground := background;
              resultHidden := false;
              resultDetails :=
                Some (writeDetails (resultDetails page) (detailsText (reasons analysis)));
              alerts := alerts page |}.

End Listener.

End Dom.

(** A page on which nothing was submitted yet, with a text in the input:
    the page of the examples below. *)
Definition freshPage (input : string) : Dom.Page :=
  {| Dom.urlInput := input; Dom.resultText := EmptyString;
     Dom.resultTextColor := EmptyString; Dom.resultBorder := EmptyString;
     Dom.resultBackground := EmptyString; Dom.resultHidden := true;
     Dom.resultDetails := None; Dom.alerts := [] |}.

(** [/\n/] *)
Definition isNewline (c : ascii) : bool := Js.isChar "010" c.

(** ** The first version of the script

    The two functions of the older file: a format check with the pattern
    that the engine also uses, and a detector that looks for seven
    keywords. *)

Module Aid.

(** Function to validate URL format *)
Definition isValidURL (url : string) : bool := Re.testWhole Pattern.url url.

Definition fraudKeywords : list string :=
  [ "login"; "verify"; "update"; "secure"; "bank"; "account"; "paypal" ].

(** [for (let word of words) if (url.toLowerCase().includes(word)) return true;
    return false;] *)
Fixpoint anyWord (url : string) (words : list string) : bool :=
  match words with
  | [] => false
  | word :: rest =>
      if Js.includes (Js.toLowerCase url) word then true else anyWord url rest
  end.

(** Function to detect if URL is suspicious *)
Definition isFraudulent (url : string) : bool := anyWord url fraudKeywords.

End Aid.

(** * Properties *)

(** ** The primitives on small inputs *)

Example split_on_dot : Js.split "192.168.1.1" "." = ["192"; "168"; "1"; "1"].
Proof. reflexivity. Qed.

Example split_without_separator : Js.split "example" "." = ["example"].
Proof. reflexivity. Qed.

Example split_on_hostname :
  Js.split "http://a.co/a.co?x" "a.co" = ["http://"; "/"; "?x"].
Proof. reflexivity. Qed.

Example endsWith_suffix :
  Js.endsWith "secure-login.xyz" ".xyz" = true /\ Js.endsWith "xyz" ".xyz" = false.
Proof. by vm_compute. Qed.

Example includes_inside :
  Js.includes "http://a.b/loginpage" "login" = true
  /\ Js.includes "http://a.b/log-in" "login" = false.
Proof. by vm_compute. Qed.

Example toLowerCase_letters : Js.toLowerCase "HTTP://Example.COM/~A1" = "http://example.com/~a1".
Proof. reflexivity. Qed.

Example normalize_digits : normalize "g00gle-1.c3m" = "googlel.cem".
Proof. reflexivity. Qed.

Example pattern_url :
  Re.testWhole Pattern.url "https://a.b/c" = true
  /\ Re.testWhole Pattern.url "https://a b" = false
  /\ Re.testWhole Pattern.url "mailto://a" = false
  /\ Re.testWhole Pattern.url "http://" = false.
Proof. by vm_compute. Qed.

Example pattern_dotted :
  Re.testWhole Pattern.dotted "example.com" = true
  /\ Re.testWhole Pattern.dotted "example" = false
  /\ Re.testWhole Pattern.dotted ".com" = false
  /\ Re.testWhole Pattern.dotted "a.b c" = false.
Proof. by vm_compute. Qed.

Example pattern_ipv4 :
  Re.testWhole Pattern.ipv4 "192.168.1.1" = true
  /\ Re.testWhole Pattern.ipv4 "1.2.3" = false
  /\ Re.testWhole Pattern.ipv4 "1.2.3.4444" = false
  /\ Re.testWhole Pattern.ipv4 "999.999.999.999" = true.
Proof. by vm_compute. Qed.

Example pattern_percent :
  Re.testAnywhere Pattern.percent "a%2Fb" = true
  /\ Re.testAnywhere Pattern.percent "100%" = false
  /\ Re.testAnywhere Pattern.percent "%zz" = false.
Proof. by vm_compute. Qed.

Example pattern_scheme :
  Re.testStart Pattern.scheme "ftp://x" = true
  /\ Re.testStart Pattern.scheme "example.com" = false
  /\ Re.testStart Pattern.scheme "a1://x" = false.
Proof. by vm_compute. Qed.

Example hostname_examples :
  Url.hostname "http://192.168.1.1/login" = Normal "192.168.1.1"
  /\ Url.hostname "http://User:pw@Example.COM:8080/p?q#f" = Normal "example.com"
  /\ Url.hostname "http://0x7f.1/" = Normal "127.0.0.1"
  /\ Url.hostname "http://not a url at all" = Throw TypeError
  /\ Url.hostname "http://" = Throw TypeError
  /\ Url.hostname "http://a.com:99999/" = Throw TypeError
  /\ Url.hostname "http://1.2.3.4.5/" = Throw TypeError
  /\ Url.hostname "file:///etc/passwd" = Normal EmptyString.
Proof. by vm_compute. Qed.

(** ** The recurrence gives the least number of edits *)

Section EditDistance.

Implicit Types (s t u : list ascii) (c d : ascii).

Lemma lev_nil_r s : lev s [] = length s.
Proof. by destruct s. Qed.

Lemma lev_cons c d s t :
  lev (c :: s) (d :: t)
  = Nat.min (lev s (d :: t) + 1) (Nat.min (lev (c :: s) t + 1) (lev s t + cost c d)).
Proof. reflexivity. Qed.

Lemma lev_same s : lev s s = 0%nat.
Proof.
  induction s as [|c s IH]; [done|].
  rewrite lev_cons, IH. unfold cost. rewrite bool_decide_eq_true_2 by done. lia.
Qed.

Lemma lev_drop_l c s t : (lev (c :: s) t <= S (lev s t))%nat.
Proof.
  destruct t as [|d t]; [rewrite !lev_nil_r; simpl; lia|].
  rewrite lev_cons. lia.
Qed.

Lemma lev_drop_r d s t : (lev s (d :: t) <= S (lev s t))%nat.
Proof.
  destruct s as [|c s]; [simpl; lia|].
  rewrite lev_cons. lia.
Qed.

Lemma cost_le c d : (cost c d <= 1)%nat.
Proof. unfold cost. case_bool_decide; lia. Qed.

Lemma lev_insert c s t : (lev s t <= S (lev (c :: s) t))%nat.
Proof.
  induction t as [|d t IH]; [rewrite !lev_nil_r; simpl; lia|].
  rewrite lev_cons.
  pose proof (lev_drop_r d s t). pose proof (cost_le c d). lia.
Qed.

Lemma lev_replace c d s t : (lev (c :: s) t <= S (lev (d :: s) t))%nat.
Proof.
  induction t as [|e t IH]; [rewrite !lev_nil_r; simpl; lia|].
  rewrite !lev_cons.
  pose proof (cost_le c e). pose proof (cost_le d e). lia.
Qed.

Lemma lev_edit s t : edit s t -> forall u, (lev s u <= S (lev t u))%nat.
Proof.
  induction 1 as [c s|c s|c d s|c s t Hst IH]; intros u.
  - apply lev_insert.
  - apply lev_drop_l.
  - apply lev_replace.
  - induction u as [|e u IHu].
    + rewrite !lev_nil_r. specialize (IH []). rewrite !lev_nil_r in IH. simpl. lia.
    + rewrite !lev_cons.
      pose proof (IH (e :: u)). pose proof (IH u). lia.
Qed.

Lemma lev_least k s t : edits k s t -> (lev s t <= k)%nat.
Proof.
  induction 1 as [s|k s t u Hst _ IH]; [by rewrite lev_same|].
  pose proof (lev_edit _ _ Hst u). lia.
Qed.

Lemma edits_inside c k s t : edits k s t -> edits k (c :: s) (c :: t).
Proof.
  induction 1 as [s|k s t u Hst _ IH]; [constructor|].
  eapply edits_step; [apply edit_inside, Hst|done].
Qed.

Lemma edits_build t : edits (length t) [] t.
Proof.
  induction t as [|d t IH]; [constructor|].
  eapply edits_step; [apply (edit_insert d)|by apply edits_inside].
Qed.

Lemma edits_erase s : edits (length s) s [].
Proof.
  induction s as [|c s IH]; [constructor|].
  eapply edits_step; [apply edit_delete|done].
Qed.

Lemma lev_reached s t : edits (lev s t) s t.
Proof.
  revert t. induction s as [|c s IHs]; intros t; [apply edits_build|].
  induction t as [|d t IHt]; [rewrite lev_nil_r; apply edits_erase|].
  rewrite lev_cons.
  destruct (Nat.min_spec (lev s (d :: t) + 1)
              (Nat.min (lev (c :: s) t + 1) (lev s t + cost c d))) as [[_ ->]|[_ ->]].
  - rewrite Nat.add_1_r. eapply edits_step; [apply edit_delete|apply IHs].
  - destruct (Nat.min_spec (lev (c :: s) t + 1) (lev s t + cost c d)) as [[_ ->]|[_ ->]].
    + rewrite Nat.add_1_r.
      eapply edits_step; [apply (edit_insert d)|by apply edits_inside].
    + unfold cost. case_bool_decide as Hcd.
      * subst d. rewrite Nat.add_0_r. apply edits_inside, IHs.
      * rewrite Nat.add_1_r.
        eapply edits_step; [apply (edit_replace c d)|apply edits_inside, IHs].
Qed.

Lemma lev_editDistance s t : editDistance s t (lev s t).
Proof. split; [apply lev_reached|intros k; apply lev_least]. Qed.

(** Edits do not care about the direction in which the text is read. *)

Lemma edit_app_r s t u : edit s t -> edit (s ++ u) (t ++ u).
Proof. induction 1; simpl; by constructor. Qed.

Lemma edit_app_l u s t : edit s t -> edit (u ++ s) (u ++ t).
Proof. intros H. induction u; simpl; [done|by constructor]. Qed.

Lemma edit_rev s t : edit s t -> edit (rev s) (rev t).
Proof.
  induction 1 as [c s|c s|c d s|c s t Hst IH]; simpl.
  - rewrite <- (app_nil_r (rev s)) at 1. apply edit_app_l, edit_insert.
  - rewrite <- (app_nil_r (rev s)) at 2. apply edit_app_l, edit_delete.
  - apply edit_app_l, edit_replace.
  - by apply edit_app_r.
Qed.

Lemma edits_rev k s t : edits k s t -> edits k (rev s) (rev t).
Proof.
  induction 1 as [s|k s t u Hst _ IH]; [constructor|].
  eapply edits_step; [apply edit_rev, Hst|done].
Qed.

Lemma editDistance_rev s t (n : nat) :
  editDistance (rev s) (rev t) n -> editDistance s t n.
Proof.
  intros [Hd Hleast]. split.
  - apply edits_rev in Hd. by rewrite !rev_involutive in Hd.
  - intros k Hk. by apply Hleast, edits_rev.
Qed.

End EditDistance.

(** ** The table computes the recurrence *)

Lemma forM_seq {S : Type} (I : nat -> S -> Prop) body (start len : nat) (s : S) :
  I start s ->
  (forall k s, (start <= k < start + len)%nat -> I k s ->
     exists s', body k s = Normal s' /\ I (Datatypes.S k) s') ->
  exists s', forM (seq start len) body s = Normal s' /\ I (start + len)%nat s'.
Proof.
  revert start s. induction len as [|len IH]; intros start s Hs Hbody.
  - exists s. rewrite Nat.add_0_r. done.
  - destruct (Hbody start s) as (s1 & Hs1 & HI1); [lia|done|].
    destruct (IH (Datatypes.S start) s1) as (s2 & Hs2 & HI2); [done| |].
    + intros k s' Hk. apply Hbody. lia.
    + exists s2. simpl. rewrite Hs1. simpl. rewrite Hs2.
      split; [done|]. by rewrite Nat.add_succ_r.
Qed.

Lemma shaped_newTable m n : shaped m n (newTable m n).
Proof.
  split; [apply length_replicate|].
  intros i row [-> _]%lookup_replicate. apply length_replicate.
Qed.

Lemma store_cell m n dp i j v :
  shaped m n dp -> (i <= m)%nat -> (j <= n)%nat ->
  exists dp', store dp i j v = Normal dp' /\ shaped m n dp' /\
    cell dp' i j = Some v /\
    forall i' j', i' <> i \/ j' <> j -> cell dp' i' j' = cell dp i' j'.
Proof.
  intros [Hlen Hrows] Hi Hj.
  destruct (lookup_lt_is_Some_2 dp i) as [row Hrow]; [lia|].
  pose proof (Hrows _ _ Hrow) as Hrowlen.
  exists (<[i := <[j := v]> row]> dp). unfold store, writeSlot. rewrite Hrow.
  rewrite decide_True by lia. split; [done|]. split; [|split].
  - split; [by rewrite length_insert|].
    intros i' row'. destruct (decide (i' = i)) as [->|Hne].
    + rewrite list_lookup_insert_eq by lia. intros [= <-]. by rewrite length_insert.
    + rewrite list_lookup_insert_ne by done. apply Hrows.
  - unfold cell. rewrite list_lookup_insert_eq by lia. simpl.
    apply list_lookup_insert_eq. lia.
  - intros i' j' Hne. unfold cell. destruct (decide (i' = i)) as [->|Hi'].
    + rewrite Hrow, list_lookup_insert_eq by lia. simpl.
      apply list_lookup_insert_ne. destruct Hne; congruence.
    + by rewrite list_lookup_insert_ne.
Qed.

Lemma load_cell dp i j v : cell dp i j = Some v -> load dp i j = Normal v.
Proof.
  unfold cell, load. destruct (dp !! i) as [row|]; simpl; [|done].
  by intros ->.
Qed.

Lemma length_text (a : string) : length (list_ascii_of_string a) = String.length a.
Proof. induction a; simpl; congruence. Qed.

Lemma charAt_text (a : string) i : charAt a i = list_ascii_of_string a !! i.
Proof.
  unfold charAt. revert i. induction a as [|c a IH]; intros [|i]; simpl; done.
Qed.

Lemma prefixDistance_0_r a b i :
  (i <= length a)%nat -> prefixDistance a b i 0 = i.
Proof.
  intros Hi. unfold prefixDistance. rewrite take_0, lev_nil_r.
  rewrite length_rev, length_take. lia.
Qed.

Lemma prefixDistance_0_l a b j :
  (j <= length b)%nat -> prefixDistance a b 0 j = j.
Proof.
  intros Hj. unfold prefixDistance. rewrite take_0. simpl.
  rewrite length_rev, length_take. lia.
Qed.

Lemma prefixDistance_S a b i j :
  (i < length a)%nat -> (j < length b)%nat ->
  prefixDistance a b (S i) (S j)
  = Nat.min (prefixDistance a b i (S j) + 1)
      (Nat.min (prefixDistance a b (S i) j + 1)
         (prefixDistance a b i j
          + (if bool_decide (a !! i = b !! j) then 0 else 1)))%nat.
Proof.
  intros Hi Hj. unfold prefixDistance.
  destruct (lookup_lt_is_Some_2 a i Hi) as [x Hx].
  destruct (lookup_lt_is_Some_2 b j Hj) as [y Hy].
  rewrite (take_S_r a i x), (take_S_r b j y) by done.
  rewrite !rev_app_distr. cbn [rev app]. rewrite lev_cons. unfold cost.
  repeat case_bool_decide; congruence.
Qed.

Lemma prefixDistance_all a b :
  prefixDistance a b (length a) (length b) = lev (rev a) (rev b).
Proof. unfold prefixDistance. by rewrite !firstn_all. Qed.

Lemma filled_weaken a b (P Q : nat -> nat -> Prop) dp :
  (forall i j, (i <= length a)%nat -> (j <= length b)%nat -> Q i j -> P i j) ->
  filled a b P dp -> filled a b Q dp.
Proof. intros HQP [Hshape Hcells]. split; [done|]. auto. Qed.

Section Fill.

Variables a b : string.
Local Abbreviation A := (list_ascii_of_string a).
Local Abbreviation B := (list_ascii_of_string b).

(** [for (let i = 0; i <= m; i++) dp[i][0] = i;] *)
Lemma fill_column dp0 :
  shaped (length A) (length B) dp0 ->
  exists dp,
    forM (seq 0 (length A + 1)) (fun i dp => store dp i 0 (Some i)) dp0 = Normal dp
    /\ filled A B (fun _ j => j = 0%nat) dp.
Proof.
  intros Hshape0.
  destruct (forM_seq (fun k => filled A B (fun i j => j = 0 /\ i < k)%nat)
              (fun i dp => store dp i 0 (Some i)) 0 (length A + 1) dp0)
    as (dp & Hdp & Hfilled).
  - split; [done|]. intros i j _ _ [_ ?]. lia.
  - intros k dp Hk [Hshape Hcells].
    destruct (store_cell _ _ dp k 0 (Some k) Hshape)
      as (dp' & Hstore & Hshape' & Hnew & Hold); [lia..|].
    exists dp'. split; [done|]. split; [done|].
    intros i j Hi Hj [-> Hlt]. destruct (decide (i = k)) as [->|Hne].
    + by rewrite Hnew, prefixDistance_0_r.
    + rewrite Hold by (by left). apply Hcells; [done..|]. lia.
  - exists dp. split; [done|]. revert Hfilled. apply filled_weaken. intros ? ? ? ?; simpl; lia.
Qed.

(** [for (let j = 0; j <= n; j++) dp[0][j] = j;] *)
Lemma fill_row dp0 :
  filled A B (fun _ j => j = 0%nat) dp0 ->
  exists dp,
    forM (seq 0 (length B + 1)) (fun j dp => store dp 0 j (Some j)) dp0 = Normal dp
    /\ filled A B (fun i j => i = 0 \/ j = 0)%nat dp.
Proof.
  intros Hfilled0.
  destruct (forM_seq (fun k => filled A B (fun i j => j = 0 \/ (i = 0 /\ j < k))%nat)
              (fun j dp => store dp 0 j (Some j)) 0 (length B + 1) dp0)
    as (dp & Hdp & Hfilled).
  - revert Hfilled0. apply filled_weaken. intros ? ? ? ?; simpl; lia.
  - intros k dp Hk [Hshape Hcells].
    destruct (store_cell _ _ dp 0 k (Some k) Hshape)
      as (dp' & Hstore & Hshape' & Hnew & Hold); [lia..|].
    exists dp'. split; [done|]. split; [done|].
    intros i j Hi Hj HP.
    destruct (decide (i = 0 /\ j = k)%nat) as [[-> ->]|Hne].
    + by rewrite Hnew, prefixDistance_0_l.
    + rewrite Hold by lia. apply Hcells; [done..|]. lia.
  - exists dp. split; [done|]. revert Hfilled. apply filled_weaken. intros ? ? ? ?; simpl; lia.
Qed.

Lemma fill_inner i dp0 :
  (1 <= i <= length A)%nat ->
  filled A B (fun i' j' => i' = 0 \/ j' = 0 \/ i' < i)%nat dp0 ->
  exists dp,
    forM (seq 1 (length B)) (relax a b i) dp0 = Normal dp
    /\ filled A B (fun i' j' => i' = 0 \/ j' = 0 \/ i' < S i)%nat dp.
Proof.
  intros Hi Hfilled0.
  destruct (forM_seq
              (fun k => filled A B
                 (fun i' j' => i' = 0 \/ j' = 0 \/ i' < i \/ (i' = i /\ j' < k))%nat)
              (relax a b i) 1 (length B) dp0)
    as (dp & Hdp & Hfilled).
  - revert Hfilled0. apply filled_weaken. intros ? ? ? ?; simpl; lia.
  - intros k dp Hk [Hshape Hcells].
    destruct i as [|i]; [lia|]. destruct k as [|k]; [lia|].
    unfold relax. rewrite !Nat.sub_succ, !Nat.sub_0_r.
    rewrite (load_cell dp i (S k) (Some (prefixDistance A B i (S k))))
      by (apply Hcells; lia).
    rewrite (load_cell dp (S i) k (Some (prefixDistance A B (S i) k)))
      by (apply Hcells; lia).
    rewrite (load_cell dp i k (Some (prefixDistance A B i k)))
      by (apply Hcells; lia).
    cbn [mbind completion_bind].
    destruct (store_cell _ _ dp (S i) (S k)
                (min3 (addNum (Some (prefixDistance A B i (S k))) 1)
                   (addNum (Some (prefixDistance A B (S i) k)) 1)
                   (addNum (Some (prefixDistance A B i k))
                      (if bool_decide (charAt a i = charAt b k) then 0 else 1)%nat))
                Hshape)
      as (dp' & Hstore & Hshape' & Hnew & Hold); [lia..|].
    exists dp'. split; [done|]. split; [done|].
    intros i' j' Hi' Hj' HP.
    destruct (decide (i' = S i /\ j' = S k)) as [[-> ->]|Hne].
    + rewrite Hnew, prefixDistance_S, !charAt_text by lia. done.
    + rewrite Hold by lia. apply Hcells; [done..|]. lia.
  - exists dp. split; [done|]. revert Hfilled. apply filled_weaken. intros ? ? ? ?; simpl; lia.
Qed.

Lemma fill_outer dp0 :
  filled A B (fun i j => i = 0 \/ j = 0)%nat dp0 ->
  exists dp,
    forM (seq 1 (length A)) (fun i dp => forM (seq 1 (length B)) (relax a b i) dp) dp0
    = Normal dp
    /\ filled A B (fun _ _ => True) dp.
Proof.
  intros Hfilled0.
  destruct (forM_seq
              (fun k => filled A B (fun i' j' => i' = 0 \/ j' = 0 \/ i' < k)%nat)
              (fun i dp => forM (seq 1 (length B)) (relax a b i) dp) 1 (length A) dp0)
    as (dp & Hdp & [Hshape Hcells]).
  - revert Hfilled0. apply filled_weaken. intros ? ? ? ?; simpl; lia.
  - intros k dp Hk Hfilled. apply fill_inner; [lia|done].
  - exists dp. split; [done|]. split; [done|].
    intros i j Hi Hj _. apply Hcells; [done..|]. lia.
Qed.

End Fill.

(** The script's function returns the value of the recurrence, and never
    throws. *)
Lemma levenshtein_lev (a b : string) :
  levenshtein a b
  = Normal (Some (lev (rev (list_ascii_of_string a)) (rev (list_ascii_of_string b)))).
Proof.
  unfold levenshtein.
  destruct (String.eqb_spec a EmptyString) as [->|Ha].
  { simpl. by rewrite length_rev, length_text. }
  destruct (String.eqb_spec b EmptyString) as [->|Hb].
  { simpl. by rewrite lev_nil_r, length_rev, length_text. }
  rewrite <- !(length_text a), <- !(length_text b).
  destruct (fill_column a b (newTable _ _) (shaped_newTable _ _)) as (dp1 & -> & H1).
  destruct (fill_row a b dp1 H1) as (dp2 & H2eq & H2).
  cbn [mbind completion_bind]. rewrite H2eq.
  destruct (fill_outer a b dp2 H2) as (dp3 & H3eq & [_ H3]).
  cbn [mbind completion_bind]. rewrite H3eq.
  cbn [mbind completion_bind].
  rewrite (load_cell dp3 _ _ _ (H3 _ _ (le_n _) (le_n _) I)).
  by rewrite prefixDistance_all.
Qed.

(** C5: [levenshtein a b] returns the least number of single-character
    insertions, deletions and substitutions that turn [a] into [b], for all
    strings; the distance from the empty string to [s] is the length of [s],
    the distance from [s] to itself is 0, and the distance from kitten to
    sitting is 3. *)
Theorem levenshtein_edit_distance :
  (forall a b : string, exists d,
      levenshtein a b = Normal (Some d)
      /\ editDistance (list_ascii_of_string a) (list_ascii_of_string b) d)
  /\ (forall s : string, levenshtein EmptyString s = Normal (Some (String.length s)))
  /\ (forall s : string, levenshtein s s = Normal (Some 0%nat))
  /\ levenshtein "kitten" "sitting" = Normal (Some 3%nat).
Proof.
  split; [|split; [|split]].
  - intros a b. eexists. split; [apply levenshtein_lev|].
    apply editDistance_rev, lev_editDistance.
  - done.
  - intros s. by rewrite levenshtein_lev, lev_same.
  - by vm_compute.
Qed.

(** ** The engine and the table of contributions *)

Lemma pushAll_app cs1 cs2 st : pushAll (cs1 ++ cs2) st = pushAll cs2 (pushAll cs1 st).
Proof. apply fold_left_app. Qed.

Lemma flag_when test reason weight st :
  flag test reason weight st = pushAll (when test reason weight) st.
Proof. by destruct test. Qed.

Lemma tldRule_contribution hostname tlds st :
  tldRule hostname tlds st = pushAll (tldContribution hostname tlds) st.
Proof.
  unfold tldContribution. induction tlds as [|tld tlds IH]; simpl; [done|].
  by destruct (Js.endsWith hostname tld).
Qed.

Lemma keywordRule_contributions url kws st :
  keywordRule url kws st = pushAll (keywordContributions url kws) st.
Proof.
  unfold keywordContributions. revert st.
  induction kws as [|kw kws IH]; intros st; simpl; [done|].
  rewrite IH. unfold flag. by destruct (mentions url kw).
Qed.

Lemma typosquatRule_contribution normalized pds st :
  typosquatRule normalized pds st
  = Normal (pushAll (typosquatContribution normalized pds) st).
Proof.
  unfold typosquatContribution. induction pds as [|pd pds IH]; simpl; [done|].
  unfold resembles at 1. rewrite levenshtein_lev. cbn [mbind completion_bind].
  by destruct (near _ normalized pd).
Qed.

Lemma rules_contributions cfg url hostname st :
  rules cfg url hostname st = Normal (pushAll (contributions cfg url hostname) st).
Proof.
  unfold rules, contributions, pathContributions.
  rewrite typosquatRule_contribution. cbn [mbind completion_bind].
  rewrite !flag_when, tldRule_contribution, keywordRule_contributions.
  by rewrite !pushAll_app.
Qed.

Lemma reasons_pushAll cs st :
  Acc.reasons (pushAll cs st) = Acc.reasons st ++ map fst cs.
Proof.
  revert st. induction cs as [|c cs IH]; intros st; simpl.
  - by rewrite app_nil_r.
  - rewrite IH. simpl. by rewrite <- app_assoc.
Qed.

Lemma score_pushAll cs st : Acc.score (pushAll cs st) = Acc.score st + weights cs.
Proof.
  revert st. induction cs as [|c cs IH]; intros st; simpl; [lia|].
  rewrite IH. simpl. lia.
Qed.

(** What [analyze] returns, in one equation. *)
Lemma analyze_unfold URL cfg url :
  analyze URL cfg url =
  let early := when (badFormat url) Reason.malformed 1 in
  match getHostname URL url with
  | Some (String c h) =>
      let cs := early ++ contributions cfg url (String c h) in
      Normal {| score := weights cs;
                verdict := verdictOf (weights cs);
                reasons := map fst cs |}
  | _ =>
      let cs := early ++ [(Reason.noHostname, 3)] in
      Normal {| score := weights cs; verdict := Fraudulent; reasons := map fst cs |}
  end.
Proof.
  unfold analyze. rewrite flag_when.
  destruct (getHostname URL url) as [[|c h]|]; simpl.
  - by destruct (badFormat url).
  - rewrite rules_contributions. cbn [mbind completion_bind].
    rewrite <- pushAll_app, score_pushAll, reasons_pushAll. simpl.
    by rewrite Z.add_0_l.
  - by destruct (badFormat url).
Qed.

Lemma analyze_returns URL cfg url : exists r, analyze URL cfg url = Normal r.
Proof.
  rewrite analyze_unfold. destruct (getHostname URL url) as [[|c h]|]; simpl; eauto.
Qed.

(** ** Every reason carries the weight of its rule *)

Lemma fair_when test reason weight :
  weightOf reason = weight -> Forall fair (when test reason weight).
Proof. intros Hw. destruct test; repeat constructor. done. Qed.

Lemma weightOf_tld tld : weightOf (Reason.tld tld) = 3.
Proof. reflexivity. Qed.

Lemma weightOf_keyword kw : weightOf (Reason.keyword kw) = 2.
Proof. reflexivity. Qed.

Lemma weightOf_typosquat pd : weightOf (Reason.typosquat pd) = 4.
Proof. reflexivity. Qed.

Lemma fair_contributions cfg url hostname : Forall fair (contributions cfg url hostname).
Proof.
  unfold contributions, pathContributions.
  repeat (apply Forall_app; split); try (by apply fair_when).
  - unfold tldContribution. destruct (List.find _ _); repeat constructor.
  - unfold keywordContributions. apply Forall_map, Forall_forall. by intros kw _.
  - unfold typosquatContribution. destruct (List.find _ _); repeat constructor.
Qed.

Lemma totalWeight_fair cs : Forall fair cs -> totalWeight (map fst cs) = weights cs.
Proof.
  induction 1 as [|c cs Hc _ IH]; simpl; [done|]. unfold fair in Hc. congruence.
Qed.

Lemma getHostname_via URL url tmp :
  (if Re.testStart Pattern.scheme url then url else "http://" +:+ url) = tmp ->
  getHostname URL url
  = match URL tmp with
    | Normal hostname => Some (Js.toLowerCase hostname)
    | Throw _ => None
    end.
Proof. by intros <-. Qed.

Lemma missing_hostname (hostname : option string) :
  missing hostname = match hostname with Some (String _ _) => false | _ => true end.
Proof. by destruct hostname as [[|c h]|]. Qed.

(** C2: for every URL text, parser and configuration, the score of the
    result is the sum of the weights of the rules whose reasons are in the
    reasons list, one weight per entry; the verdict is what the threshold
    mapping gives for that score, except on the short-circuit for a missing
    hostname, where it is Fraudulent. *)
Theorem score_is_sum_of_reason_weights URL cfg url :
  exists r,
    analyze URL cfg url = Normal r
    /\ score r = totalWeight (reasons r)
    /\ verdict r
       = if missing (getHostname URL url) then Fraudulent else verdictOf (score r).
Proof.
  rewrite analyze_unfold, missing_hostname.
  destruct (getHostname URL url) as [[|c h]|]; simpl;
    eexists; (split; [reflexivity|]); simpl; (split; [|done]);
    rewrite totalWeight_fair; try done;
    apply Forall_app; split;
    try (by apply fair_when); try (by repeat constructor).
  apply fair_contributions.
Qed.

(** C3: when hostname extraction fails, the analysis appends the fixed
    parse-failure reason, adds weight 3 and returns at once with the verdict
    Fraudulent: the reasons are the parse-failure reason, preceded by the
    format reason when the format check fired, and nothing of the rules for
    IP, TLD, keyword, typosquat or path. *)
Theorem hostname_failure_short_circuit URL cfg url :
  getHostname URL url = None ->
  exists r,
    analyze URL cfg url = Normal r
    /\ verdict r = Fraudulent
    /\ reasons r = (if badFormat url then [Reason.malformed] else []) ++ [Reason.noHostname]
    /\ score r = (if badFormat url then 1 else 0) + 3
    /\ Forall (fun reason => reason = Reason.malformed \/ reason = Reason.noHostname)
         (reasons r).
Proof.
  intros Hnone. rewrite analyze_unfold, Hnone.
  destruct (badFormat url); simpl; eexists; (split; [reflexivity|]); simpl;
    (split; [done|]); (split; [done|]); (split; [done|]);
    repeat (apply Forall_cons_2; [by auto|]); apply Forall_nil_2.
Qed.

Lemma hostname_failure_short_circuit_witness :
  exists r,
    analyze Url.hostname defaultConfig "not a url at all" = Normal r
    /\ verdict r = Fraudulent
    /\ reasons r = [Reason.malformed; Reason.noHostname]
    /\ score r = 4.
Proof.
  destruct (hostname_failure_short_circuit Url.hostname defaultConfig
              "not a url at all" eq_refl) as (r & Hr & Hv & Hreasons & Hscore & _).
  exists r. repeat split; assumption.
Defined.

(** C10: when hostname extraction fails, the score is 3 and the reasons list
    has one entry if the text matched the scheme pattern or the bare dotted
    pattern, and the score is 4 and the list has two entries otherwise. *)
Theorem short_circuit_score URL cfg url :
  missing (getHostname URL url) = true ->
  exists r,
    analyze URL cfg url = Normal r
    /\ if Re.testWhole Pattern.url url || Re.testWhole Pattern.dotted url
       then score r = 3 /\ length (reasons r) = 1%nat
       else score r = 4 /\ length (reasons r) = 2%nat.
Proof.
  rewrite missing_hostname, analyze_unfold. unfold badFormat.
  destruct (getHostname URL url) as [[|c h]|]; try done; intros _;
    destruct (Re.testWhole Pattern.url url), (Re.testWhole Pattern.dotted url);
    simpl; eauto.
Qed.

Lemma short_circuit_score_witness :
  exists r,
    analyze Url.hostname defaultConfig "http://exa mple.com" = Normal r
    /\ score r = 4 /\ length (reasons r) = 2%nat.
Proof.
  apply (short_circuit_score Url.hostname defaultConfig "http://exa mple.com").
  reflexivity.
Defined.

(** C9: the analysis returns a result for every string, whatever the parser
    does, and never throws; the empty string fails hostname extraction and is
    classified Fraudulent by the short-circuit. *)
Theorem analyze_total URL cfg :
  (forall url, exists r, analyze URL cfg url = Normal r)
  /\ (URL "http://" = Throw TypeError ->
      getHostname URL EmptyString = None
      /\ analyze URL cfg EmptyString
         = Normal {| score := 4; verdict := Fraudulent;
                     reasons := [Reason.malformed; Reason.noHostname] |}).
Proof.
  split; [intros url; apply analyze_returns|].
  intros Hthrow.
  assert (getHostname URL EmptyString = None) as Hnone.
  { by rewrite (getHostname_via URL EmptyString "http://" eq_refl), Hthrow. }
  split; [done|]. by rewrite analyze_unfold, Hnone.
Qed.

Lemma analyze_total_witness :
  (forall url, exists r, analyzeURL url = Normal r)
  /\ analyzeURL EmptyString
     = Normal {| score := 4; verdict := Fraudulent;
                 reasons := [Reason.malformed; Reason.noHostname] |}.
Proof.
  destruct (analyze_total Url.hostname defaultConfig) as [Htotal Hempty].
  split; [exact Htotal|]. apply Hempty. reflexivity.
Defined.

(** C4: the verdict is a function of the final score alone: Fraudulent from
    8 up, Suspicious from 4 up, Safe below; so a lower score never has a more
    severe verdict than a higher one. *)
Theorem verdict_mapping :
  (forall s, 8 <= s -> verdictOf s = Fraudulent)
  /\ (forall s, 4 <= s < 8 -> verdictOf s = Suspicious)
  /\ (forall s, s < 4 -> verdictOf s = Safe)
  /\ (forall s1 s2, s1 < s2 -> severity (verdictOf s1) <= severity (verdictOf s2))
  /\ (forall URL cfg url r,
        analyze URL cfg url = Normal r -> missing (getHostname URL url) = false ->
        verdict r = verdictOf (score r)).
Proof.
  unfold verdictOf. repeat split.
  - intros s Hs. by rewrite (proj2 (Z.leb_le 8 s)).
  - intros s Hs. rewrite (proj2 (Z.leb_gt 8 s)), (proj2 (Z.leb_le 4 s)); [done|lia..].
  - intros s Hs. rewrite (proj2 (Z.leb_gt 8 s)), (proj2 (Z.leb_gt 4 s)); [done|lia..].
  - intros s1 s2 Hlt.
    destruct (Z.leb_spec 8 s1), (Z.leb_spec 4 s1), (Z.leb_spec 8 s2), (Z.leb_spec 4 s2);
      simpl; lia.
  - intros URL cfg url r. rewrite analyze_unfold, missing_hostname.
    destruct (getHostname URL url) as [[|c h]|]; try done.
    by intros [= <-] _.
Qed.

Lemma verdict_mapping_witness :
  verdictOf 10 = Fraudulent /\ verdictOf 7 = Suspicious /\ verdictOf 3 = Safe
  /\ severity (verdictOf 3) <= severity (verdictOf 10).
Proof.
  destruct verdict_mapping as (Hhigh & Hmid & Hlow & Hmono & _).
  split; [apply Hhigh; lia|]. split; [apply Hmid; lia|].
  split; [apply Hlow; lia|]. apply Hmono. lia.
Defined.

(** ** The examples of the specification *)

(** C1 as it is stated does not hold: the address of the example also has
    four labels and eight digits, so the score is 10 and the verdict is not
    Suspicious. *)
Lemma ip_login_not_suspicious :
  ~ (exists r,
       analyzeURL "http://192.168.1.1/login" = Normal r
       /\ In Reason.rawIP (reasons r)
       /\ In (Reason.keyword "login") (reasons r)
       /\ 7 <= score r
       /\ verdict r = Suspicious
       /\ 4 <= score r < 8).
Proof.
  intros (r & Hr & _ & _ & _ & Hv & _).
  vm_compute in Hr. injection Hr as <-. discriminate Hv.
Qed.

(** C1, amended: for the text http://192.168.1.1/login and the lists of the
    script, the reasons contain the raw-IP reason and the keyword reason for
    login, next to the reasons for multiple subdomains and many digits; the
    score is 10, which is at least 7, and the verdict is Fraudulent. *)
Theorem ip_login_is_fraudulent URL :
  URL "http://192.168.1.1/login" = Normal "192.168.1.1" ->
  exists r,
    analyze URL defaultConfig "http://192.168.1.1/login" = Normal r
    /\ In Reason.rawIP (reasons r)
    /\ In (Reason.keyword "login") (reasons r)
    /\ reasons r = [Reason.rawIP; Reason.subdomains; Reason.digits; Reason.keyword "login"]
    /\ score r = 10
    /\ 7 <= score r
    /\ verdict r = Fraudulent.
Proof.
  intros Hhost. rewrite analyze_unfold.
  rewrite (getHostname_via URL "http://192.168.1.1/login" "http://192.168.1.1/login" eq_refl), Hhost.
  eexists. split; [by vm_compute|]. simpl. repeat split; auto. done.
Qed.

Lemma ip_login_is_fraudulent_witness :
  exists r,
    analyzeURL "http://192.168.1.1/login" = Normal r
    /\ In Reason.rawIP (reasons r)
    /\ In (Reason.keyword "login") (reasons r)
    /\ reasons r = [Reason.rawIP; Reason.subdomains; Reason.digits; Reason.keyword "login"]
    /\ score r = 10
    /\ 7 <= score r
    /\ verdict r = Fraudulent.
Proof. apply (ip_login_is_fraudulent Url.hostname). reflexivity. Defined.

(** C7 at an input where the hostname text comes back in the path: the
    script keeps the piece between the first two occurrences, "/", where the
    substring after the first occurrence has five separators; the reason for
    many query parameters is not given. *)
Theorem path_stops_at_second_occurrence :
  let url := "http://a.co/a.co?a&b&c&d&e" in
  Url.hostname url = Normal "a.co"
  /\ pathOf url "a.co" = "/"
  /\ afterFirstOccurrence url "a.co" = Some "/a.co?a&b&c&d&e"
  /\ Js.matchCount isSeparator "/a.co?a&b&c&d&e" = 5%nat
  /\ analyzeURL url = Normal {| score := 0; verdict := Safe; reasons := [] |}.
Proof. by vm_compute. Qed.

(** ** Which reasons of a result belong to a rule *)

Lemma filter_when (p : string -> bool) test reason weight :
  p reason = false -> List.filter p (map fst (when test reason weight)) = [].
Proof. intros Hp. destruct test; simpl; [by rewrite Hp|done]. Qed.

Lemma filter_tldContribution (p : string -> bool) hostname tlds :
  (forall tld, p (Reason.tld tld) = false) ->
  List.filter p (map fst (tldContribution hostname tlds)) = [].
Proof.
  intros Hp. unfold tldContribution.
  destruct (List.find _ _); simpl; [by rewrite Hp|done].
Qed.

Lemma filter_typosquatContribution (p : string -> bool) normalized pds :
  (forall pd, p (Reason.typosquat pd) = p (Reason.typosquat EmptyString)) ->
  List.filter p (map fst (typosquatContribution normalized pds))
  = if p (Reason.typosquat EmptyString)
    then map fst (typosquatContribution normalized pds) else [].
Proof.
  intros Hp. unfold typosquatContribution.
  destruct (List.find _ _) as [pd|]; simpl; [rewrite Hp|]; by destruct (p _).
Qed.

Lemma filter_keywordContributions (p : string -> bool) url kws :
  (forall kw, p (Reason.keyword kw) = p (Reason.keyword EmptyString)) ->
  List.filter p (map fst (keywordContributions url kws))
  = if p (Reason.keyword EmptyString)
    then map Reason.keyword (List.filter (mentions url) kws) else [].
Proof.
  intros Hp. unfold keywordContributions.
  induction (List.filter (mentions url) kws) as [|kw l IH]; simpl.
  - by destruct (p _).
  - rewrite Hp, IH. by destruct (p _).
Qed.

(** The reasons of the contributions that a test [p] picks out, when [p]
    tells the three families of reasons apart by how their texts begin. *)
Lemma filter_contributions (p : string -> bool) cfg url hostname :
  (forall tld, p (Reason.tld tld) = false) ->
  (forall kw, p (Reason.keyword kw) = p (Reason.keyword EmptyString)) ->
  (forall pd, p (Reason.typosquat pd) = p (Reason.typosquat EmptyString)) ->
  Forall (fun reason => p reason = false)
    [Reason.rawIP; Reason.longURL; Reason.longHostname; Reason.subdomains;
     Reason.percent; Reason.at_sign; Reason.hyphens; Reason.digits;
     Reason.longPath; Reason.manyParams] ->
  List.filter p (map fst (contributions cfg url hostname))
  = (if p (Reason.keyword EmptyString)
     then map Reason.keyword (List.filter (mentions url) (fraudKeywords cfg)) else [])
    ++ (if p (Reason.typosquat EmptyString)
        then map fst (typosquatContribution (normalize hostname) (popularDomains cfg))
        else []).
Proof.
  intros Htld Hkw Hpd Hfixed.
  repeat (apply Forall_cons in Hfixed as [? Hfixed]).
  unfold contributions, pathContributions.
  rewrite !map_app, !List.filter_app.
  rewrite !filter_when, filter_tldContribution by done.
  rewrite filter_keywordContributions, filter_typosquatContribution by done.
  simpl. by rewrite app_nil_r.
Qed.

Lemma resembles_near normalized pd :
  resembles normalized pd = true ->
  exists d,
    levenshtein normalized pd = Normal (Some d)
    /\ (4 * d <= Nat.max (String.length normalized) (String.length pd))%nat
    /\ normalized <> pd.
Proof.
  unfold resembles. rewrite levenshtein_lev. unfold near, atMostQuarter.
  intros [[_ Hle%Nat.leb_le]%andb_prop Hne%negb_true_iff]%andb_prop.
  eexists. split; [done|]. split; [done|]. by apply String.eqb_neq.
Qed.

Lemma typosquat_none_of_popular normalized :
  In normalized POPULAR_DOMAINS ->
  typosquatContribution normalized POPULAR_DOMAINS = [].
Proof.
  intros Hin. simpl in Hin.
  repeat (destruct Hin as [<-|Hin]; [by vm_compute|]). done.
Qed.

(** C6: the typosquat loop stops at the first domain of the list that is
    close to the normalized hostname and different from it, and then adds one
    reason and weight 4, so it contributes at most one reason to a result; a
    normalized hostname that is equal to a popular domain of the script gets
    no typosquat reason, as for http://go0gle.com, and http://gooogle.com,
    at distance 1 from google.com, gets the reason. *)
Theorem typosquat_rule URL :
  URL "http://go0gle.com" = Normal "go0gle.com" ->
  URL "http://gooogle.com" = Normal "gooogle.com" ->
  (forall normalized pds st,
      typosquatRule normalized pds st
      = Normal match List.find (resembles normalized) pds with
               | Some pd => push (Reason.typosquat pd) 4 st
               | None => st
               end)
  /\ (forall normalized pds pd,
        List.find (resembles normalized) pds = Some pd -> pd <> normalized)
  /\ (forall hostname st,
        In (normalize hostname) POPULAR_DOMAINS ->
        typosquatRule (normalize hostname) POPULAR_DOMAINS st = Normal st)
  /\ (forall cfg url, exists r,
        analyze URL cfg url = Normal r
        /\ (length (List.filter isTyposquatReason (reasons r)) <= 1)%nat)
  /\ (exists r,
        analyze URL defaultConfig "http://go0gle.com" = Normal r
        /\ normalize "go0gle.com" = "google.com"
        /\ List.filter isTyposquatReason (reasons r) = [])
  /\ (exists r,
        analyze URL defaultConfig "http://gooogle.com" = Normal r
        /\ levenshtein (normalize "gooogle.com") "google.com" = Normal (Some 1%nat)
        /\ List.filter isTyposquatReason (reasons r) = [Reason.typosquat "google.com"]).
Proof.
  intros Hgo0gle Hgooogle. repeat split.
  - intros normalized pds st. rewrite typosquatRule_contribution.
    unfold typosquatContribution. by destruct (List.find _ _).
  - intros normalized pds pd [_ Hpd]%find_some.
    apply resembles_near in Hpd as (d & _ & _ & Hne). congruence.
  - intros hostname st Hin.
    by rewrite typosquatRule_contribution, typosquat_none_of_popular.
  - intros cfg url. rewrite analyze_unfold.
    destruct (getHostname URL url) as [[|c h]|]; simpl; eexists;
      (split; [reflexivity|]); simpl;
      rewrite map_app, List.filter_app, filter_when by done; simpl;
      try (destruct (badFormat url); simpl; lia).
    rewrite (filter_contributions isTyposquatReason) by (done || by repeat constructor).
    simpl. unfold typosquatContribution. destruct (List.find _ _); simpl; lia.
  - rewrite analyze_unfold.
    rewrite (getHostname_via URL "http://go0gle.com" "http://go0gle.com" eq_refl), Hgo0gle.
    eexists. split; [by vm_compute|]. split; by vm_compute.
  - rewrite analyze_unfold.
    rewrite (getHostname_via URL "http://gooogle.com" "http://gooogle.com" eq_refl), Hgooogle.
    eexists. split; [by vm_compute|]. split; by vm_compute.
Qed.

Lemma typosquat_rule_witness :
  (exists r,
      analyzeURL "http://go0gle.com" = Normal r
      /\ normalize "go0gle.com" = "google.com"
      /\ List.filter isTyposquatReason (reasons r) = [])
  /\ (exists r,
        analyzeURL "http://gooogle.com" = Normal r
        /\ levenshtein (normalize "gooogle.com") "google.com" = Normal (Some 1%nat)
        /\ List.filter isTyposquatReason (reasons r) = [Reason.typosquat "google.com"])
  /\ typosquatRule (normalize "go0gle.com") POPULAR_DOMAINS (Acc.make [] 0)
     = Normal (Acc.make [] 0).
Proof.
  destruct (typosquat_rule Url.hostname eq_refl eq_refl)
    as (_ & _ & Hpopular & _ & Hgo0gle & Hgooogle).
  split; [exact Hgo0gle|]. split; [exact Hgooogle|].
  apply Hpopular. vm_compute. auto.
Defined.

(** ** One keyword reason per configured keyword *)

Lemma text_app (s t : string) :
  list_ascii_of_string (s +:+ t) = list_ascii_of_string s ++ list_ascii_of_string t.
Proof. induction s as [|c s IH]; simpl; [done|]. by rewrite IH. Qed.

Lemma text_inj (s t : string) : list_ascii_of_string s = list_ascii_of_string t -> s = t.
Proof.
  intros Heq. rewrite <- (string_of_list_ascii_of_string s), Heq.
  apply string_of_list_ascii_of_string.
Qed.

Lemma append_inv_head (p s t : string) : p +:+ s = p +:+ t -> s = t.
Proof. induction p as [|c p IH]; simpl; [done|]. intros [= Heq]. auto. Qed.

Lemma append_inv_tail (p s t : string) : s +:+ p = t +:+ p -> s = t.
Proof.
  intros Heq. apply text_inj. apply (f_equal list_ascii_of_string) in Heq.
  rewrite !text_app in Heq. by apply app_inv_tail in Heq.
Qed.

Lemma keyword_inj kw kw' : Reason.keyword kw = Reason.keyword kw' -> kw = kw'.
Proof.
  unfold Reason.keyword. intros Heq.
  do 2 apply append_inv_head in Heq. by apply append_inv_tail in Heq.
Qed.

Lemma filter_filter_implied {A} (p q : A -> bool) (l : list A) :
  (forall x, p x = true -> q x = true) ->
  List.filter p l = List.filter p (List.filter q l).
Proof.
  intros Hpq. induction l as [|x l IH]; simpl; [done|].
  destruct (p x) eqn:Hp.
  - rewrite (Hpq x Hp). simpl. by rewrite Hp, IH.
  - destruct (q x); simpl; [by rewrite Hp|done].
Qed.

Lemma filter_eqb_keyword kw (l : list string) :
  List.filter (String.eqb (Reason.keyword kw)) (map Reason.keyword l)
  = map Reason.keyword (List.filter (String.eqb kw) l).
Proof.
  induction l as [|x l IH]; cbn [List.filter map]; [done|].
  destruct (String.eqb_spec kw x) as [->|Hne].
  - rewrite String.eqb_refl. cbn [map]. by rewrite IH.
  - destruct (String.eqb_spec (Reason.keyword kw) (Reason.keyword x)) as [Heq|_];
      [by apply keyword_inj in Heq|done].
Qed.

Lemma length_filter_filter {A} (p q : A -> bool) (l : list A) :
  (length (List.filter p (List.filter q l)) <= length (List.filter p l))%nat.
Proof.
  induction l as [|x l IH]; simpl; [done|].
  destruct (q x), (p x) eqn:Hp; simpl; rewrite ?Hp; simpl; lia.
Qed.

Lemma length_filter_eqb_NoDup (x : string) (l : list string) :
  NoDup l -> (length (List.filter (String.eqb x) l) <= 1)%nat.
Proof.
  induction 1 as [|y l Hy _ IH]; simpl; [lia|].
  destruct (String.eqb_spec x y) as [->|_]; [|done].
  assert (List.filter (String.eqb y) l = []) as ->; [|simpl; lia].
  clear IH. induction l as [|z l IHl]; simpl; [done|].
  apply not_elem_of_cons in Hy as [Hyz Hy].
  destruct (String.eqb_spec y z); [done|auto].
Qed.

(** C8: the keyword loop adds one reason and weight 2 for every keyword of
    the list that the lower-cased URL contains, however often it contains it,
    and nothing for the others; the keyword reasons of a result are those, so
    a keyword that the list holds once has at most one reason in a result,
    and the keywords that match are not capped. *)
Theorem keyword_rule URL cfg url :
  (forall kws st,
      keywordRule url kws st
      = Acc.make
          (Acc.reasons st ++ map Reason.keyword (List.filter (mentions url) kws))
          (Acc.score st + 2 * Z.of_nat (length (List.filter (mentions url) kws))))
  /\ exists r,
      analyze URL cfg url = Normal r
      /\ List.filter isKeywordReason (reasons r)
         = (if missing (getHostname URL url) then []
            else map Reason.keyword (List.filter (mentions url) (fraudKeywords cfg)))
      /\ (forall kw,
            NoDup (fraudKeywords cfg) ->
            (length (List.filter (String.eqb (Reason.keyword kw)) (reasons r)) <= 1)%nat).
Proof.
  split.
  - intros kws st. rewrite keywordRule_contributions.
    destruct (pushAll _ st) as [rs sc] eqn:Hpush.
    apply (f_equal Acc.reasons) in Hpush as Hrs.
    apply (f_equal Acc.score) in Hpush as Hsc.
    rewrite reasons_pushAll in Hrs. rewrite score_pushAll in Hsc. simpl in *.
    subst rs sc. unfold keywordContributions. rewrite map_map. simpl.
    f_equal. f_equal.
    induction (List.filter (mentions url) kws) as [|kw l IH]; simpl; [done|].
    rewrite IH. lia.
  - assert (exists r,
        analyze URL cfg url = Normal r
        /\ List.filter isKeywordReason (reasons r)
           = (if missing (getHostname URL url) then []
              else map Reason.keyword (List.filter (mentions url) (fraudKeywords cfg))))
      as (r & Hr & Hkw).
    { rewrite analyze_unfold, missing_hostname.
      destruct (getHostname URL url) as [[|c h]|]; simpl; eexists;
        (split; [reflexivity|]); simpl;
        rewrite map_app, List.filter_app, filter_when by done; simpl; try done.
      rewrite (filter_contributions isKeywordReason) by (done || by repeat constructor).
      simpl. by rewrite app_nil_r. }
    exists r. split; [done|]. split; [done|].
    intros kw Hnodup.
    rewrite (filter_filter_implied _ isKeywordReason), Hkw.
    + destruct (missing _); [simpl; lia|].
      rewrite filter_eqb_keyword, length_map.
      etrans; [apply length_filter_filter|]. by apply length_filter_eqb_NoDup.
    + intros reason <-%String.eqb_eq. done.
Qed.

Lemma keyword_rule_witness :
  exists r,
    analyzeURL "http://example.com/login/login?next=login" = Normal r
    /\ (length (List.filter (String.eqb (Reason.keyword "login")) (reasons r)) <= 1)%nat.
Proof.
  destruct (keyword_rule Url.hostname defaultConfig
              "http://example.com/login/login?next=login")
    as (_ & r & Hr & _ & Hone).
  exists r. split; [exact Hr|]. apply Hone.
  apply (bool_decide_unpack _). by vm_compute.
Defined.

(** * Further properties of the script *)

(** ** The edit distance is a metric *)

Section Metric.

Implicit Types (s t u : list ascii).

Lemma edit_sym s t : edit s t -> edit t s.
Proof. induction 1; by constructor. Qed.

Lemma edits_snoc k s t u : edits k s t -> edit t u -> edits (S k) s u.
Proof.
  induction 1 as [s|k s t v Hst _ IH]; intros Hu.
  - eapply edits_step; [done|constructor].
  - eapply edits_step; [done|by apply IH].
Qed.

Lemma edits_sym k s t : edits k s t -> edits k t s.
Proof.
  induction 1 as [s|k s t u Hst _ IH]; [constructor|].
  eapply edits_snoc; [done|by apply edit_sym].
Qed.

Lemma edits_trans j k s t u : edits j s t -> edits k t u -> edits (j + k) s u.
Proof.
  induction 1 as [s|j s t v Hst _ IH]; intros Hu; [done|].
  simpl. eapply edits_step; [done|by apply IH].
Qed.

Lemma lev_sym s t : lev s t = lev t s.
Proof.
  apply Nat.le_antisymm; apply lev_least, edits_sym, lev_reached.
Qed.

Lemma lev_triangle s t u : (lev s u <= lev s t + lev t u)%nat.
Proof. apply lev_least. eapply edits_trans; apply lev_reached. Qed.

Lemma lev_zero s t : lev s t = 0%nat -> s = t.
Proof.
  intros Hz. pose proof (lev_reached s t) as Hr. rewrite Hz in Hr. by inversion Hr.
Qed.

Lemma lev_upper s t : (lev s t <= Nat.max (length s) (length t))%nat.
Proof.
  revert t. induction s as [|c s IH]; intros t; [simpl; lia|].
  destruct t as [|d t]; [rewrite lev_nil_r; lia|].
  rewrite lev_cons. pose proof (IH t). pose proof (cost_le c d). simpl. lia.
Qed.

Lemma edit_length s t :
  edit s t -> (length s <= S (length t) /\ length t <= S (length s))%nat.
Proof. induction 1; simpl; lia. Qed.

Lemma edits_length k s t :
  edits k s t -> (length s <= length t + k /\ length t <= length s + k)%nat.
Proof.
  induction 1 as [s|k s t u Hst%edit_length _ IH]; lia.
Qed.

End Metric.

Lemma rev_text_inj (a b : string) :
  rev (list_ascii_of_string a) = rev (list_ascii_of_string b) -> a = b.
Proof.
  intros Heq. apply text_inj. apply (f_equal (@rev ascii)) in Heq.
  by rewrite !rev_involutive in Heq.
Qed.

(** X1: the distance does not depend on the order of the two texts. *)
Theorem levenshtein_symmetric (a b : string) : levenshtein a b = levenshtein b a.
Proof. by rewrite !levenshtein_lev, lev_sym. Qed.

(** X2: the distance from [a] to [c] is at most the distance from [a] to [b]
    plus the distance from [b] to [c]. *)
Theorem levenshtein_triangle (a b c : string) :
  exists x y z,
    levenshtein a b = Normal (Some x)
    /\ levenshtein b c = Normal (Some y)
    /\ levenshtein a c = Normal (Some z)
    /\ (z <= x + y)%nat.
Proof.
  do 3 eexists. rewrite !levenshtein_lev. repeat split. apply lev_triangle.
Qed.

(** X3: the distance is 0 for equal texts and for no others. *)
Theorem levenshtein_zero_iff_equal (a b : string) :
  levenshtein a b = Normal (Some 0%nat) <-> a = b.
Proof.
  rewrite levenshtein_lev. split.
  - intros [= Hz]. by apply rev_text_inj, lev_zero.
  - intros ->. by rewrite lev_same.
Qed.

(** X4: the distance is at most the length of the longer text and at least
    the difference of the two lengths. *)
Theorem levenshtein_bounds (a b : string) :
  exists d,
    levenshtein a b = Normal (Some d)
    /\ (d <= Nat.max (String.length a) (String.length b))%nat
    /\ (String.length a <= String.length b + d)%nat
    /\ (String.length b <= String.length a + d)%nat.
Proof.
  eexists. split; [apply levenshtein_lev|].
  pose proof (lev_upper (rev (list_ascii_of_string a)) (rev (list_ascii_of_string b))) as Hup.
  pose proof (edits_length _ _ _
                (lev_reached (rev (list_ascii_of_string a)) (rev (list_ascii_of_string b))))
    as Hlow.
  rewrite !length_rev, !length_text in Hup, Hlow. lia.
Qed.

(** ** The matcher decides the language of the pattern *)

Section Matcher.

Import Re.

Lemma lang_never s : ~ lang Never s.
Proof. inversion 1. Qed.

Lemma append_empty (u v : string) :
  u +:+ v = EmptyString -> u = EmptyString /\ v = EmptyString.
Proof. by destruct u. Qed.

Lemma append_cons (u v : string) c s :
  u +:+ v = String c s ->
  (u = EmptyString /\ v = String c s) \/ (exists u', u = String c u' /\ s = u' +:+ v).
Proof.
  destruct u as [|d u]; simpl; [by left|].
  intros [= -> <-]. right. eauto.
Qed.

Lemma nullable_lang r : nullable r = true -> lang r EmptyString.
Proof.
  induction r as [| |cls|r1 IH1 r2 IH2|r1 IH1 r2 IH2|r IH]; simpl; try done.
  - intros _. constructor.
  - intros [H1 H2]%andb_prop. apply (lang_seq _ _ EmptyString EmptyString); auto.
  - intros [H1|H2]%orb_prop; [apply lang_alt_l|apply lang_alt_r]; auto.
  - intros _. constructor.
Qed.

Lemma lang_nullable r s : lang r s -> s = EmptyString -> nullable r = true.
Proof.
  induction 1 as [|cls c Hc|r s u v _ IHr _ IHs|r s u _ IH|r s u _ IH|r|r u v _ _ _ _];
    simpl; intros Hnil; try done.
  - apply append_empty in Hnil as [-> ->]. by rewrite IHr, IHs.
  - by rewrite IH.
  - rewrite IH by done. apply orb_true_r.
Qed.

Lemma lang_seq' r s w : lang (seq' r s) w <-> lang (Seq r s) w.
Proof.
  split.
  - destruct r, s; simpl; try done; try (by intros []%lang_never);
      intros H; by apply (lang_seq _ _ EmptyString _ lang_empty H).
  - inversion 1 as [| |r' s' u v Hu Hv| | | |]; subst.
    destruct r; try (by apply lang_never in Hu);
      destruct s; try (by apply lang_never in Hv); simpl;
      try (by constructor); by inversion Hu.
Qed.

Lemma lang_alt' r s w : lang (alt' r s) w <-> lang (Alt r s) w.
Proof.
  split.
  - destruct r, s; simpl; try done;
      first [by apply lang_alt_r | by apply lang_alt_l].
  - inversion 1 as [| | |r' s' u Hu|r' s' u Hu| |]; subst;
      destruct r; try (by apply lang_never in Hu);
      destruct s; try (by apply lang_never in Hu); simpl;
      first [done | by apply lang_alt_l | by apply lang_alt_r].
Qed.

Lemma deriv_lang c r s : lang (deriv c r) s -> lang r (String c s).
Proof.
  revert s. induction r as [| |cls|r1 IH1 r2 IH2|r1 IH1 r2 IH2|r IH]; intros s; simpl.
  - by intros []%lang_never.
  - by intros []%lang_never.
  - destruct (cls c) eqn:Hc; [|by intros []%lang_never].
    inversion 1; subst. by constructor.
  - assert (lang (seq' (deriv c r1) r2) s -> lang (Seq r1 r2) (String c s)) as Hleft.
    { intros H%lang_seq'. inversion H as [| |r' s' u v Hu Hv| | | |]; subst.
      apply (lang_seq _ _ (String c u) v); auto. }
    destruct (nullable r1) eqn:Hnull; [|done].
    intros H%lang_alt'. inversion H as [| | |r' s' u Hu|r' s' u Hu| |]; subst; [auto|].
    apply (lang_seq _ _ EmptyString (String c s)); [by apply nullable_lang|auto].
  - intros H%lang_alt'. inversion H; subst; [apply lang_alt_l|apply lang_alt_r]; auto.
  - intros H%lang_seq'. inversion H as [| |r' s' u v Hu Hv| | | |]; subst.
    apply (lang_star_more _ (String c u) v); auto.
Qed.

Lemma lang_deriv r w : lang r w -> forall c s, w = String c s -> lang (deriv c r) s.
Proof.
  induction 1 as [|cls d Hd|r s u v Hu IHu Hv IHv|r s u _ IH|r s u _ IH|r
                  |r u v Hu IHu Hv IHv]; intros c w Heq; simpl; try done.
  - injection Heq as -> <-. rewrite Hd. constructor.
  - apply append_cons in Heq as [[-> ->]|(u' & -> & ->)].
    + rewrite (lang_nullable _ _ Hu eq_refl). apply lang_alt', lang_alt_r. auto.
    + assert (lang (seq' (deriv c r) s) (u' +:+ v)) as Hleft.
      { apply lang_seq'. constructor; auto. }
      destruct (nullable r); [apply lang_alt', lang_alt_l|]; done.
  - apply lang_alt', lang_alt_l. auto.
  - apply lang_alt', lang_alt_r. auto.
  - apply append_cons in Heq as [[-> ->]|(u' & -> & ->)]; [by apply IHv|].
    apply lang_seq'. constructor; auto.
Qed.

Lemma matches_lang r s : matches r s = true <-> lang r s.
Proof.
  revert r. induction s as [|c s IH]; intros r; simpl.
  - split; [apply nullable_lang|intros H; by eapply lang_nullable].
  - rewrite IH. split; [apply deriv_lang|intros H; by eapply lang_deriv].
Qed.

End Matcher.

(** ** Counting the characters of a class *)

Lemma in_allAscii c : In c allAscii.
Proof.
  unfold allAscii. rewrite <- (ascii_nat_embedding c).
  apply in_map, in_seq. pose proof (nat_ascii_bounded c). lia.
Qed.

Lemma classWithin_spec q p c : classWithin q p = true -> q c = true -> p c = true.
Proof.
  unfold classWithin. rewrite forallb_forall. intros Hall Hq.
  specialize (Hall c (in_allAscii c)). by rewrite Hq in Hall.
Qed.

Lemma classApart_spec q p c : classApart q p = true -> q c = true -> p c = false.
Proof.
  unfold classApart. rewrite forallb_forall. intros Hall Hq.
  specialize (Hall c (in_allAscii c)). rewrite Hq in Hall. by destruct (p c).
Qed.

Lemma matchCount_app p (u v : string) :
  Js.matchCount p (u +:+ v) = (Js.matchCount p u + Js.matchCount p v)%nat.
Proof. induction u as [|c u IH]; simpl; [done|]. rewrite IH. lia. Qed.

Lemma length_append (u v : string) :
  String.length (u +:+ v) = (String.length u + String.length v)%nat.
Proof. induction u as [|c u IH]; simpl; [done|]. by rewrite IH. Qed.

Lemma matchCount_length p s : (Js.matchCount p s <= String.length s)%nat.
Proof. induction s as [|c s IH]; simpl; [done|]. destruct (p c); lia. Qed.

Lemma minCount_lang p r s : lang r s -> (minCount p r <= Js.matchCount p s)%nat.
Proof.
  induction 1 as [|cls c Hc|r s u v _ IHu _ IHv|r s u _ IH|r s u _ IH|r|r u v _ _ _ _];
    simpl; rewrite ?matchCount_app; try lia.
  destruct (classWithin cls p) eqn:Hin; [|lia].
  rewrite (classWithin_spec _ _ _ Hin Hc). lia.
Qed.

Lemma avoids_lang p r s : lang r s -> avoids p r = true -> Js.matchCount p s = 0%nat.
Proof.
  induction 1 as [|cls c Hc|r s u v _ IHu _ IHv|r s u _ IH|r s u _ IH|r
                  |r u v _ IHu _ IHv];
    simpl; rewrite ?matchCount_app; try done.
  - intros Hapart. by rewrite (classApart_spec _ _ _ Hapart Hc).
  - intros [Hr Hs]%andb_prop. rewrite IHu, IHv; done.
  - intros [Hr _]%andb_prop. auto.
  - intros [_ Hs]%andb_prop. auto.
  - intros Hr. rewrite IHu, IHv; done.
Qed.

(** The pieces of a text split at a character are one more than the
    occurrences of the character. *)
Lemma length_splitFrom_char x piece s :
  length (Js.splitFrom (String x EmptyString) 0 piece s)
  = (Js.matchCount (Js.isChar x) s + 1)%nat.
Proof.
  revert piece. induction s as [|c s IH]; intros piece; simpl; [done|].
  unfold Js.isChar in *. rewrite andb_true_r, (Ascii.eqb_sym x c).
  destruct (Ascii.eqb c x); simpl; rewrite IH; lia.
Qed.

Lemma length_split_char x s :
  length (Js.split s (String x EmptyString)) = (Js.matchCount (Js.isChar x) s + 1)%nat.
Proof. apply length_splitFrom_char. Qed.

(** ** Texts inside texts *)

Lemma append_String c (u v : string) : String c u +:+ v = String c (u +:+ v).
Proof. reflexivity. Qed.

Lemma append_assoc (u v w : string) : (u +:+ v) +:+ w = u +:+ (v +:+ w).
Proof. induction u as [|c u IH]; [done|]. by rewrite !append_String, IH. Qed.

Lemma append_nil_r (u : string) : u +:+ EmptyString = u.
Proof. induction u as [|c u IH]; [done|]. by rewrite append_String, IH. Qed.

Lemma startsWith_spec s p : Js.startsWith s p = true <-> exists v, s = p +:+ v.
Proof.
  revert s. induction p as [|c p IH]; intros s; simpl.
  - split; [eauto|done].
  - destruct s as [|d s].
    + split; [done|]. by intros [v [=]].
    + rewrite andb_true_iff, IH. split.
      * intros [->%Ascii.eqb_eq [v ->]]. eauto.
      * intros [v [= -> ->]]. split; [apply Ascii.eqb_refl|eauto].
Qed.

Lemma includes_spec s t : Js.includes s t = true <-> exists u v, s = u +:+ t +:+ v.
Proof.
  induction s as [|c s IH].
  - simpl. rewrite orb_false_r, startsWith_spec. split.
    + intros [v ->]. by exists EmptyString, v.
    + intros (u & v & Heq). symmetry in Heq.
      apply append_empty in Heq as [-> [-> ->]%append_empty]. by exists EmptyString.
  - cbn [Js.includes]. rewrite orb_true_iff, startsWith_spec, IH. split.
    + intros [[v ->]|(u & v & ->)].
      * by exists EmptyString, v.
      * by exists (String c u), v.
    + intros (u & v & Heq). destruct u as [|d u].
      * left. by exists v.
      * injection Heq as -> ->. right. eauto.
Qed.

Lemma toLowerCase_app (u v : string) :
  Js.toLowerCase (u +:+ v) = Js.toLowerCase u +:+ Js.toLowerCase v.
Proof. induction u as [|c u IH]; simpl; [done|]. by rewrite IH. Qed.

Lemma includes_trans s t u :
  Js.includes s t = true -> Js.includes t u = true -> Js.includes s u = true.
Proof.
  rewrite !includes_spec. intros (a & b & ->) (c & d & ->).
  exists (a +:+ c), (d +:+ b). by rewrite !append_assoc.
Qed.

Lemma includes_toLowerCase s t :
  Js.includes s t = true -> Js.includes (Js.toLowerCase s) (Js.toLowerCase t) = true.
Proof.
  rewrite !includes_spec. intros (a & b & ->).
  exists (Js.toLowerCase a), (Js.toLowerCase b). by rewrite !toLowerCase_app.
Qed.

Lemma lowerChar_idemp c : Js.lowerChar (Js.lowerChar c) = Js.lowerChar c.
Proof. destruct c as [[] [] [] [] [] [] [] []]; reflexivity. Qed.

Lemma toLowerCase_idemp s : Js.toLowerCase (Js.toLowerCase s) = Js.toLowerCase s.
Proof. induction s as [|c s IH]; simpl; [done|]. by rewrite lowerChar_idemp, IH. Qed.

Lemma lang_Lit t w : lang (Re.Lit t) w <-> w = t.
Proof.
  revert w. induction t as [|c t IH]; intros w; simpl.
  - split; [by inversion 1|intros ->; constructor].
  - split.
    + inversion 1 as [| |r s u v Hu Hv| | | |]; subst.
      inversion Hu as [|cls d Hd| | | | |]; subst.
      apply Ascii.eqb_eq in Hd as ->. apply IH in Hv as ->. done.
    + intros ->. apply (lang_seq _ _ (String c EmptyString) t); [|by apply IH].
      constructor. apply Ascii.eqb_refl.
Qed.

Lemma lang_anything w : lang Re.anything w.
Proof.
  induction w as [|c w IH]; [constructor|].
  by apply (lang_star_more _ (String c EmptyString) w); [constructor|].
Qed.

Lemma testAnywhere_Lit t s : Re.testAnywhere (Re.Lit t) s = Js.includes s t.
Proof.
  apply eq_true_iff_eq. unfold Re.testAnywhere. rewrite matches_lang, includes_spec.
  split.
  - inversion 1 as [| |r1 r2 u v _ Hv| | | |]; subst.
    inversion Hv as [| |r1 r2 t' v' Ht _| | | |]; subst.
    apply lang_Lit in Ht as ->. eauto.
  - intros (u & v & ->). constructor; [apply lang_anything|].
    constructor; [by apply lang_Lit|apply lang_anything].
Qed.

(** ** What the rules weigh *)

Lemma weights_app cs1 cs2 : weights (cs1 ++ cs2) = weights cs1 + weights cs2.
Proof. induction cs1 as [|c cs1 IH]; simpl; [done|]. rewrite IH. lia. Qed.

Lemma when_bounds test reason weight :
  0 <= weight -> 0 <= weights (when test reason weight) <= weight.
Proof. destruct test; simpl; lia. Qed.

Lemma tld_bounds hostname tlds : 0 <= weights (tldContribution hostname tlds) <= 3.
Proof. unfold tldContribution. destruct (List.find _ _); simpl; lia. Qed.

Lemma typosquat_bounds normalized pds :
  0 <= weights (typosquatContribution normalized pds) <= 4.
Proof. unfold typosquatContribution. destruct (List.find _ _); simpl; lia. Qed.

Lemma keyword_weights url kws :
  weights (keywordContributions url kws)
  = 2 * Z.of_nat (length (List.filter (mentions url) kws)).
Proof.
  unfold keywordContributions.
  induction (List.filter (mentions url) kws) as [|kw l IH]; simpl; [done|]. lia.
Qed.

Lemma length_filter_le {A} (p : A -> bool) (l : list A) :
  (length (List.filter p l) <= length l)%nat.
Proof. induction l as [|x l IH]; simpl; [done|]. destruct (p x); simpl; lia. Qed.

Lemma keyword_bounds url kws :
  0 <= weights (keywordContributions url kws) <= 2 * Z.of_nat (length kws).
Proof.
  rewrite keyword_weights. pose proof (length_filter_le (mentions url) kws). lia.
Qed.

(** The weights of the contributions, piece by piece, for [lia]. *)
Ltac weigh :=
  unfold contributions, pathContributions;
  rewrite ?weights_app;
  repeat match goal with
    | |- context [weights (when ?t ?r ?w)] =>
        let H := fresh "Hwhen" in
        pose proof (when_bounds t r w ltac:(lia)) as H;
        generalize dependent (weights (when t r w)); intros
    | |- context [weights (tldContribution ?h ?l)] =>
        let H := fresh "Htld" in
        pose proof (tld_bounds h l) as H;
        generalize dependent (weights (tldContribution h l)); intros
    | |- context [weights (typosquatContribution ?n ?l)] =>
        let H := fresh "Htypo" in
        pose proof (typosquat_bounds n l) as H;
        generalize dependent (weights (typosquatContribution n l)); intros
    | |- context [weights (keywordContributions ?u ?l)] =>
        let H := fresh "Hkw" in
        pose proof (keyword_bounds u l) as H;
        generalize dependent (weights (keywordContributions u l)); intros
    end.

Lemma contributions_bounds cfg url hostname :
  0 <= weights (contributions cfg url hostname)
    <= 27 + 2 * Z.of_nat (length (fraudKeywords cfg)).
Proof. weigh. lia. Qed.

Lemma positive_when test reason weight :
  1 <= weight -> Forall (fun c : contribution => 1 <= c.2) (when test reason weight).
Proof.
  intros Hw. destruct test; [apply Forall_cons_2; [done|]|]; apply Forall_nil_2.
Qed.

Lemma positive_contributions cfg url hostname :
  Forall (fun c : contribution => 1 <= c.2) (contributions cfg url hostname).
Proof.
  unfold contributions, pathContributions.
  repeat (apply Forall_app; split); try (by apply positive_when).
  - unfold tldContribution.
    destruct (List.find _ _); [apply Forall_cons_2; [simpl; lia|]|]; apply Forall_nil_2.
  - unfold keywordContributions. apply Forall_map, Forall_forall. by intros kw _.
  - unfold typosquatContribution.
    destruct (List.find _ _); [apply Forall_cons_2; [simpl; lia|]|]; apply Forall_nil_2.
Qed.

Lemma weights_positive cs :
  Forall (fun c : contribution => 1 <= c.2) cs -> Z.of_nat (length cs) <= weights cs.
Proof. induction 1 as [|c cs Hc _ IH]; simpl; lia. Qed.

(** X6: the score is never negative, and it is at most 28 plus twice the
    number of keywords of the list: 58 with the lists of the script. *)
Theorem score_range URL cfg url :
  exists r,
    analyze URL cfg url = Normal r
    /\ 0 <= score r <= 28 + 2 * Z.of_nat (length (fraudKeywords cfg)).
Proof.
  rewrite analyze_unfold.
  destruct (getHostname URL url) as [[|c h]|]; simpl; eexists;
    (split; [reflexivity|]); simpl; rewrite weights_app;
    pose proof (when_bounds (badFormat url) Reason.malformed 1 ltac:(lia));
    try (simpl; lia).
  pose proof (contributions_bounds cfg url (String c h)). lia.
Qed.

(** X7: a result has no reasons exactly when its score is 0, and then its
    verdict is Safe. *)
Theorem no_reasons_iff_score_zero URL cfg url :
  exists r,
    analyze URL cfg url = Normal r
    /\ (reasons r = [] <-> score r = 0)
    /\ (reasons r = [] -> verdict r = Safe).
Proof.
  rewrite analyze_unfold.
  destruct (getHostname URL url) as [[|c h]|]; simpl; eexists;
    (split; [reflexivity|]); simpl.
  1,3: destruct (badFormat url); simpl; (split; [split|]); (done || lia).
  set (cs := when (badFormat url) Reason.malformed 1 ++ contributions cfg url (String c h)).
  assert (Forall (fun c : contribution => 1 <= c.2) cs) as Hpos.
  { apply Forall_app. split; [by apply positive_when|apply positive_contributions]. }
  apply weights_positive in Hpos.
  assert (map fst cs = [] <-> weights cs = 0) as Hiff.
  { destruct cs; simpl in *; split; (done || lia). }
  split; [done|]. intros ->%Hiff. done.
Qed.

(** ** The hostname *)

Lemma isUpper_lowerChar c : Js.isUpper (Js.lowerChar c) = false.
Proof. destruct c as [[] [] [] [] [] [] [] []]; reflexivity. Qed.

Lemma matchCount_isUpper_toLowerCase s :
  Js.matchCount Js.isUpper (Js.toLowerCase s) = 0%nat.
Proof. induction s as [|c s IH]; simpl; [done|]. by rewrite isUpper_lowerChar, IH. Qed.

(** X5: a hostname that [getHostname] returns is in lower case, whatever the
    parser answers: lower-casing it again changes nothing and it holds no
    letter from A to Z. *)
Theorem getHostname_lower_case URL url hostname :
  getHostname URL url = Some hostname ->
  Js.toLowerCase hostname = hostname
  /\ Js.matchCount Js.isUpper hostname = 0%nat.
Proof.
  unfold getHostname. destruct (URL _) as [h|]; [|done].
  intros [= <-]. split; [apply toLowerCase_idemp|apply matchCount_isUpper_toLowerCase].
Qed.

Lemma getHostname_lower_case_witness :
  getHostname Url.hostname "HTTP://Example.COM/Path" = Some "example.com"
  /\ Js.toLowerCase "example.com" = "example.com"
  /\ Js.matchCount Js.isUpper "example.com" = 0%nat.
Proof.
  split; [reflexivity|].
  apply (getHostname_lower_case Url.hostname "HTTP://Example.COM/Path").
  reflexivity.
Defined.

(** ** What a result tells about the URL *)

Lemma In_filter_eqb (x : string) (l : list string) :
  In x l <-> List.filter (String.eqb x) l <> [].
Proof.
  induction l as [|y l IH]; simpl; [tauto|].
  destruct (String.eqb_spec x y) as [->|Hne]; [split; [done|auto]|].
  rewrite <- IH. split; [intros [?|?]; [congruence|done]|auto].
Qed.

(** X8: the parse-failure reason is in the result exactly when the hostname
    is missing, and that is exactly when the verdict is Fraudulent although
    the score is below 8. *)
Theorem parse_failure_iff_missing URL cfg url :
  exists r,
    analyze URL cfg url = Normal r
    /\ (In Reason.noHostname (reasons r) <-> missing (getHostname URL url) = true)
    /\ (verdict r = Fraudulent /\ score r < 8 <-> missing (getHostname URL url) = true).
Proof.
  rewrite analyze_unfold, missing_hostname.
  destruct (getHostname URL url) as [[|c h]|]; simpl; eexists;
    (split; [reflexivity|]); simpl.
  1,3: destruct (badFormat url); simpl; intuition lia.
  split.
  - rewrite In_filter_eqb, map_app, List.filter_app, filter_when by done.
    rewrite (filter_contributions (String.eqb Reason.noHostname))
      by (done || by repeat constructor).
    simpl. done.
  - split; [|done]. intros [Hv Hlt]. unfold verdictOf in Hv.
    destruct (Z.leb_spec 8 (weights (when (badFormat url) Reason.malformed 1
                                     ++ contributions cfg url (String c h)))); [lia|].
    by destruct (4 <=? _).
Qed.

(** X9: a URL with an at sign is never Safe: when the hostname is there the
    result holds the reason for the at sign and scores 4 or more, and when it
    is missing the verdict is Fraudulent. *)
Theorem at_sign_never_safe URL cfg url :
  Js.includes url "@" = true ->
  exists r,
    analyze URL cfg url = Normal r
    /\ verdict r <> Safe
    /\ (missing (getHostname URL url) = false ->
        In Reason.at_sign (reasons r) /\ 4 <= score r).
Proof.
  intros Hat. rewrite analyze_unfold, missing_hostname.
  destruct (getHostname URL url) as [[|c h]|]; simpl; eexists;
    (split; [reflexivity|]); simpl; try done.
  assert (4 <= weights (when (badFormat url) Reason.malformed 1
                        ++ contributions cfg url (String c h))) as Hscore.
  { rewrite weights_app. unfold contributions at 1.
    change Pattern.at_sign with (Re.Lit "@"). rewrite testAnywhere_Lit, Hat.
    change (when true Reason.at_sign 4) with [(Reason.at_sign, 4)].
    weigh. simpl. lia. }
  split; [|intros _; split; [|done]].
  - revert Hscore. generalize (weights (when (badFormat url) Reason.malformed 1
                                          ++ contributions cfg url (String c h))).
    intros z Hz. unfold verdictOf.
    destruct (Z.leb_spec 8 z); [done|]. destruct (Z.leb_spec 4 z); [done|lia].
  - rewrite map_app, in_app_iff. right. unfold contributions.
    change Pattern.at_sign with (Re.Lit "@"). rewrite testAnywhere_Lit, Hat.
    rewrite !map_app, !in_app_iff. do 6 right. left. by left.
Qed.

Lemma at_sign_never_safe_witness :
  exists r,
    analyzeURL "http://user@example.com" = Normal r /\ verdict r <> Safe.
Proof.
  destruct (at_sign_never_safe Url.hostname defaultConfig "http://user@example.com" eq_refl)
    as (r & Hr & Hv & _).
  exists r. split; [exact Hr|exact Hv].
Defined.

Lemma ipv4_counts hostname :
  Re.testWhole Pattern.ipv4 hostname = true ->
  (4 <= Js.matchCount Js.isDigit hostname)%nat
  /\ (3 <= Js.matchCount (Js.isChar ".") hostname)%nat.
Proof.
  intros Hip%matches_lang. split.
  - apply (minCount_lang Js.isDigit) in Hip. by vm_compute in Hip.
  - apply (minCount_lang (Js.isChar ".")) in Hip. by vm_compute in Hip.
Qed.

(** X10: a URL whose hostname is four groups of one to three digits is always
    Fraudulent: such a hostname also has four labels and more than two
    digits, so the three rules together give 8 or more. *)
Theorem raw_ip_is_fraudulent URL cfg url hostname :
  getHostname URL url = Some hostname ->
  Re.testWhole Pattern.ipv4 hostname = true ->
  exists r,
    analyze URL cfg url = Normal r
    /\ verdict r = Fraudulent
    /\ 8 <= score r
    /\ In Reason.rawIP (reasons r)
    /\ In Reason.subdomains (reasons r)
    /\ In Reason.digits (reasons r).
Proof.
  intros Hhost Hip. destruct (ipv4_counts hostname Hip) as [Hdigits Hdots].
  assert ((4 <=? length (Js.split hostname "."))%nat = true) as Hlabels.
  { apply Nat.leb_le. rewrite length_split_char. lia. }
  assert ((3 <=? Js.matchCount Js.isDigit hostname)%nat = true) as Hmany.
  { apply Nat.leb_le. lia. }
  rewrite analyze_unfold, Hhost.
  destruct hostname as [|c h]; [by vm_compute in Hip|]. simpl.
  eexists. split; [reflexivity|]. simpl.
  assert (8 <= weights (when (badFormat url) Reason.malformed 1
                        ++ contributions cfg url (String c h))) as Hscore.
  { rewrite weights_app. unfold contributions at 1. rewrite Hip, Hlabels, Hmany.
    change (when true Reason.rawIP 5) with [(Reason.rawIP, 5)].
    change (when true Reason.subdomains 2) with [(Reason.subdomains, 2)].
    change (when true Reason.digits 1) with [(Reason.digits, 1)].
    weigh. simpl. lia. }
  split; [|split; [done|]].
  - unfold verdictOf. by rewrite (proj2 (Z.leb_le 8 _) Hscore).
  - rewrite map_app. unfold contributions. rewrite Hip, Hlabels, Hmany.
    rewrite !map_app, !in_app_iff. simpl. tauto.
Qed.

Lemma raw_ip_is_fraudulent_witness :
  exists r, analyzeURL "10.0.0.1" = Normal r /\ verdict r = Fraudulent /\ 8 <= score r.
Proof.
  destruct (raw_ip_is_fraudulent Url.hostname defaultConfig "10.0.0.1" "10.0.0.1"
              eq_refl eq_refl) as (r & Hr & Hv & Hs & _).
  exists r. split; [exact Hr|]. split; [exact Hv|exact Hs].
Defined.

(** X11: the engine computes the table of the rules: the reasons of a result
    are the reasons of the contributions in the order of the rules, after the
    format reason if the format check fired, the score is the sum of their
    weights, and the verdict is the mapping of that sum; when the hostname is
    missing the only contribution after the format check is the parse-failure
    reason and the verdict is Fraudulent. *)
Theorem engine_computes_rule_table URL cfg url :
  analyze URL cfg url =
  let early := when (badFormat url) Reason.malformed 1 in
  match getHostname URL url with
  | Some (String c h) =>
      let cs := early ++ contributions cfg url (String c h) in
      Normal {| score := weights cs;
                verdict := verdictOf (weights cs);
                reasons := map fst cs |}
  | _ =>
      let cs := early ++ [(Reason.noHostname, 3)] in
      Normal {| score := weights cs; verdict := Fraudulent; reasons := map fst cs |}
  end.
Proof. apply analyze_unfold. Qed.

(** ** Keywords and suffixes *)

Lemma length_toLowerCase s : String.length (Js.toLowerCase s) = String.length s.
Proof. induction s as [|c s IH]; simpl; [done|]. by rewrite IH. Qed.

Lemma append_inj_length (u u' v v' : string) :
  u +:+ v = u' +:+ v' -> String.length u = String.length u' -> u = u' /\ v = v'.
Proof.
  revert u'. induction u as [|c u IH]; intros [|c' u']; simpl; try done.
  intros [= -> Heq] [= Hlen]. destruct (IH _ Heq Hlen) as [-> ->]. done.
Qed.

(** X12: a keyword is found only if it is written in lower case, since it is
    looked for in the lower-cased URL: a keyword of the list with a capital
    letter never gives a reason. *)
Theorem keyword_must_be_lower_case url kw :
  mentions url kw = true -> Js.toLowerCase kw = kw.
Proof.
  unfold mentions. intros (u & v & Heq)%includes_spec.
  pose proof (toLowerCase_idemp url) as Hidem.
  rewrite Heq, !toLowerCase_app in Hidem.
  apply append_inj_length in Hidem as [_ Hrest]; [|apply length_toLowerCase].
  apply append_inj_length in Hrest as [Hkw _]; [done|apply length_toLowerCase].
Qed.

Lemma keyword_must_be_lower_case_witness :
  mentions "HTTP://A.B/LOGIN" "login" = true /\ Js.toLowerCase "login" = "login".
Proof.
  split; [reflexivity|].
  apply (keyword_must_be_lower_case "HTTP://A.B/LOGIN" "login"). reflexivity.
Defined.

Lemma endsWith_spec s t : Js.endsWith s t = true <-> exists u, s = u +:+ t.
Proof.
  induction s as [|c s IH]; cbn [Js.endsWith].
  - rewrite orb_false_r, String.eqb_eq. split.
    + intros <-. by exists EmptyString.
    + intros [u Heq]. symmetry in Heq. by apply append_empty in Heq as [_ ->].
  - rewrite orb_true_iff, String.eqb_eq, IH. split.
    + intros [<-|[u ->]]; [by exists EmptyString|by exists (String c u)].
    + intros [[|d u] Heq]; [by left|]. injection Heq as -> ->. right. eauto.
Qed.

Lemma filter_contributions_tld cfg url hostname :
  List.filter isTldReason (map fst (contributions cfg url hostname))
  = map fst (tldContribution hostname (suspiciousTLDs cfg)).
Proof.
  unfold contributions, pathContributions.
  rewrite !map_app, !List.filter_app, !filter_when by done.
  rewrite filter_keywordContributions, filter_typosquatContribution by done.
  change (isTldReason (Reason.keyword EmptyString)) with false.
  change (isTldReason (Reason.typosquat EmptyString)) with false.
  cbn [app]. rewrite app_nil_r. unfold tldContribution.
  by destruct (List.find _ _).
Qed.

(** X13: a result holds at most one reason for a suspicious TLD, and the TLD
    it names is a suffix of the hostname, the first one of the list that
    is. *)
Theorem tld_rule URL cfg url :
  exists r,
    analyze URL cfg url = Normal r
    /\ (List.filter isTldReason (reasons r) = []
        \/ exists hostname tld head,
             getHostname URL url = Some hostname
             /\ List.filter isTldReason (reasons r) = [Reason.tld tld]
             /\ hostname = head +:+ tld
             /\ List.find (Js.endsWith hostname) (suspiciousTLDs cfg) = Some tld).
Proof.
  rewrite analyze_unfold.
  destruct (getHostname URL url) as [[|c h]|]; simpl; eexists;
    (split; [reflexivity|]); simpl;
    rewrite map_app, List.filter_app, filter_when by done; simpl.
  1,3: left; by destruct (badFormat url).
  rewrite filter_contributions_tld. unfold tldContribution.
  destruct (List.find _ _) as [tld|] eqn:Hfind; [|by left].
  right. apply find_some in Hfind as Hsome. destruct Hsome as [_ [head Hhead]%endsWith_spec].
  exists (String c h), tld, head. done.
Qed.

(** ** The format check *)

Lemma good_format_no_space_or_quote url :
  badFormat url = false -> Js.matchCount isSpaceOrQuote url = 0%nat.
Proof.
  unfold badFormat, Re.testWhole. intros Hgood.
  destruct (Re.matches Pattern.url url) eqn:Hurl.
  - apply matches_lang in Hurl. by apply (avoids_lang isSpaceOrQuote) in Hurl.
  - destruct (Re.matches Pattern.dotted url) eqn:Hdotted; [|done].
    apply matches_lang in Hdotted. by apply (avoids_lang isSpaceOrQuote) in Hdotted.
Qed.

(** X14: a text that holds a space or a double quote always gets the format
    reason, as the first reason of the result, and so a score of 1 or more. *)
Theorem space_or_quote_is_malformed URL cfg url :
  (0 < Js.matchCount isSpaceOrQuote url)%nat ->
  exists r,
    analyze URL cfg url = Normal r
    /\ head (reasons r) = Some Reason.malformed
    /\ 1 <= score r.
Proof.
  intros Hcount.
  assert (badFormat url = true) as Hbad.
  { destruct (badFormat url) eqn:Hgood; [done|].
    apply good_format_no_space_or_quote in Hgood. lia. }
  rewrite analyze_unfold, Hbad.
  destruct (getHostname URL url) as [[|c h]|]; simpl; eexists;
    (split; [reflexivity|]); simpl; (split; [done|]); try lia.
  pose proof (contributions_bounds cfg url (String c h)). lia.
Qed.

Lemma space_or_quote_is_malformed_witness :
  exists r,
    analyzeURL "http://exam ple.com" = Normal r
    /\ head (reasons r) = Some Reason.malformed
    /\ 1 <= score r.
Proof.
  apply (space_or_quote_is_malformed Url.hostname defaultConfig "http://exam ple.com").
  vm_compute. lia.
Defined.

(** ** The first version and the engine *)

Lemma lang_scheme_of_url url : lang Pattern.url url -> lang (Re.Seq Pattern.scheme Re.anything) url.
Proof.
  unfold Pattern.url.
  inversion 1 as [| |r1 r2 sch rest Hsch Hrest| | | |]; subst.
  inversion Hrest as [| |r1 r2 sep tail Hsep _| | | |]; subst.
  apply (lang_Lit "://") in Hsep as ->.
  assert (forall s, In s ["ftp"; "http"; "https"] ->
            lang (Re.Seq Pattern.scheme Re.anything) (s +:+ "://" +:+ tail)) as Hbuild.
  { intros s Hs. rewrite <- append_assoc.
    constructor; [|apply lang_anything].
    apply matches_lang. simpl in Hs.
    repeat (destruct Hs as [<-|Hs]; [by vm_compute|]). done. }
  apply Hbuild.
  inversion Hsch as [| | |r1 r2 u Hu|r1 r2 u Hu| |]; subst.
  - apply (lang_Lit "ftp") in Hu as ->. simpl. tauto.
  - inversion Hu as [| | |r1 r2 u' Hu'|r1 r2 u' Hu'| |]; subst.
    + apply (lang_Lit "http") in Hu' as ->. simpl. tauto.
    + apply (lang_Lit "https") in Hu' as ->. simpl. tauto.
Qed.

(** X15: a URL that the format check of the first version accepts passes the
    format check of the engine, holds no space and no double quote, and is
    given to the parser as it is written, without a scheme put in front. *)
Theorem valid_url_is_parsed_as_written URL url :
  Aid.isValidURL url = true ->
  badFormat url = false
  /\ Js.matchCount isSpaceOrQuote url = 0%nat
  /\ getHostname URL url
     = match URL url with
       | Normal hostname => Some (Js.toLowerCase hostname)
       | Throw _ => None
       end.
Proof.
  unfold Aid.isValidURL. intros Hvalid.
  assert (badFormat url = false) as Hgood.
  { unfold badFormat. by rewrite Hvalid. }
  split; [done|]. split; [by apply good_format_no_space_or_quote|].
  apply getHostname_via.
  assert (Re.testStart Pattern.scheme url = true) as ->; [|done].
  apply matches_lang, lang_scheme_of_url, matches_lang, Hvalid.
Qed.

Lemma valid_url_is_parsed_as_written_witness :
  badFormat "https://example.com/a" = false
  /\ getHostname Url.hostname "https://example.com/a" = Some "example.com".
Proof.
  destruct (valid_url_is_parsed_as_written Url.hostname "https://example.com/a" eq_refl)
    as (Hgood & _ & Hhost).
  split; [exact Hgood|]. rewrite Hhost. reflexivity.
Defined.

Lemma anyWord_spec url words :
  Aid.anyWord url words = true <-> exists word, In word words /\ mentions url word = true.
Proof.
  unfold mentions. induction words as [|w words IH]; simpl.
  - split; [done|]. by intros (? & [] & _).
  - destruct (Js.includes (Js.toLowerCase url) w) eqn:Hw.
    + split; [|done]. intros _. exists w. auto.
    + rewrite IH. split.
      * intros (word & Hin & Hword). eauto.
      * intros (word & [<-|Hin] & Hword); [congruence|eauto].
Qed.

Lemma old_keywords_kept word : In word Aid.fraudKeywords -> In word FRAUD_KEYWORDS.
Proof. simpl. tauto. Qed.

(** X16: when the detector of the first version flags a URL, the engine
    scores it 2 or more, and if the hostname is there the result names a
    keyword of the first version that the URL holds. *)
Theorem old_detector_is_kept URL url :
  Aid.isFraudulent url = true ->
  exists r,
    analyze URL defaultConfig url = Normal r
    /\ 2 <= score r
    /\ (missing (getHostname URL url) = false ->
        exists word,
          In word Aid.fraudKeywords /\ mentions url word = true
          /\ In (Reason.keyword word) (reasons r)).
Proof.
  unfold Aid.isFraudulent. intros (word & Hin & Hword)%anyWord_spec.
  assert (In word (List.filter (mentions url) FRAUD_KEYWORDS)) as Hfound.
  { apply filter_In. split; [by apply old_keywords_kept|done]. }
  rewrite analyze_unfold, missing_hostname.
  destruct (getHostname URL url) as [[|c h]|]; cbn zeta; eexists;
    (split; [reflexivity|]); cbn [score reasons].
  1,3: split; [|done]; rewrite weights_app;
       pose proof (when_bounds (badFormat url) Reason.malformed 1 ltac:(lia));
       simpl; lia.
  split.
  - rewrite weights_app. unfold contributions. rewrite !weights_app, keyword_weights.
    change (fraudKeywords defaultConfig) with FRAUD_KEYWORDS.
    destruct (List.filter (mentions url) FRAUD_KEYWORDS) as [|kw l]; [done|].
    weigh. simpl length. lia.
  - intros _. exists word. split; [done|]. split; [done|].
    rewrite map_app, in_app_iff. right. unfold contributions.
    rewrite !map_app, !in_app_iff. do 9 right. left.
    unfold keywordContributions. rewrite map_map. simpl.
    apply in_map_iff. exists word. done.
Qed.

Lemma old_detector_is_kept_witness :
  exists r, analyzeURL "http://example.com/verify" = Normal r /\ 2 <= score r.
Proof.
  destruct (old_detector_is_kept Url.hostname "http://example.com/verify" eq_refl)
    as (r & Hr & Hs & _).
  exists r. split; [exact Hr|exact Hs].
Defined.

Lemma mentions_grows url big kw :
  Js.includes big url = true -> mentions url kw = true -> mentions big kw = true.
Proof.
  unfold mentions. intros Hin%includes_toLowerCase Hkw. by eapply includes_trans.
Qed.

(** X17: text around a URL never hides a keyword: a URL that holds another
    one holds all the keywords of the other, for the keyword rule of the
    engine and for the detector of the first version. *)
Theorem keywords_survive_embedding url big :
  Js.includes big url = true ->
  (forall kw, mentions url kw = true -> mentions big kw = true)
  /\ (forall kws, (length (List.filter (mentions url) kws)
                   <= length (List.filter (mentions big) kws))%nat)
  /\ (Aid.isFraudulent url = true -> Aid.isFraudulent big = true).
Proof.
  intros Hin. split; [|split].
  - intros kw. by apply mentions_grows.
  - intros kws. induction kws as [|kw kws IH]; simpl; [done|].
    destruct (mentions url kw) eqn:Hkw.
    + rewrite (mentions_grows _ _ _ Hin Hkw). simpl. lia.
    + destruct (mentions big kw); simpl; lia.
  - unfold Aid.isFraudulent. rewrite !anyWord_spec.
    intros (word & Hword & Hkw). exists word. split; [done|]. by eapply mentions_grows.
Qed.

Lemma keywords_survive_embedding_witness :
  mentions "http://a.b/redirect?to=http://x.y/login" "login" = true.
Proof.
  destruct (keywords_survive_embedding "http://x.y/login"
              "http://a.b/redirect?to=http://x.y/login" eq_refl) as [Hkw _].
  apply Hkw. reflexivity.
Defined.

(** ** The path *)

Lemma splitFrom_absent sep piece s :
  Js.includes s sep = false -> Js.splitFrom sep 0 piece s = [piece +:+ s].
Proof.
  revert piece. induction s as [|c s IH]; intros piece; cbn [Js.includes Js.splitFrom].
  - intros _. by rewrite append_nil_r.
  - intros [Hhere Hlater]%orb_false_elim. rewrite Hhere, (IH _ Hlater).
    by rewrite append_assoc.
Qed.

(** X18: when the text of the hostname is nowhere in the URL as it was
    typed, as for a URL with capital letters in its host, the path that the
    path rules look at is empty and they contribute nothing. *)
Theorem path_empty_without_hostname_text url hostname :
  Js.includes url hostname = false ->
  pathOf url hostname = EmptyString
  /\ pathContributions (pathOf url hostname) = [].
Proof.
  intros Habsent.
  assert (pathOf url hostname = EmptyString) as ->; [|done].
  unfold pathOf, Js.split.
  destruct (String.eqb_spec hostname EmptyString) as [->|_].
  - by destruct url.
  - by rewrite splitFrom_absent.
Qed.

Lemma path_empty_without_hostname_text_witness :
  getHostname Url.hostname "HTTP://EXAMPLE.COM/?a&b&c&d&e" = Some "example.com"
  /\ pathOf "HTTP://EXAMPLE.COM/?a&b&c&d&e" "example.com" = EmptyString.
Proof.
  split; [reflexivity|].
  apply (path_empty_without_hostname_text "HTTP://EXAMPLE.COM/?a&b&c&d&e" "example.com").
  reflexivity.
Defined.

(** ** The listener of the form *)

Section Listener.

Import Dom.

Lemma trimStart_blank s : allChars isWhiteSpace s = true -> trimStart s = EmptyString.
Proof.
  induction s as [|c s IH]; simpl; [done|].
  intros [Hc Hs]%andb_prop. rewrite Hc. auto.
Qed.

Lemma trimEnd_nonblank c s : isWhiteSpace c = false -> trimEnd (String c s) <> EmptyString.
Proof. intros Hc. simpl. destruct (trimEnd s); [by rewrite Hc|done]. Qed.

Lemma trim_blank_iff s : trim s = EmptyString <-> allChars isWhiteSpace s = true.
Proof.
  unfold trim. split.
  - induction s as [|c s IH]; simpl; [done|].
    destruct (isWhiteSpace c) eqn:Hc; [done|].
    intros Hnil. by apply trimEnd_nonblank in Hnil.
  - intros Hblank. by rewrite trimStart_blank.
Qed.

(** X19: when the input holds nothing but white space the listener shows the
    alert and changes nothing else on the page; the engine is not run. *)
Theorem blank_input_only_alerts analyzer page :
  allChars isWhiteSpace (urlInput page) = true ->
  onSubmit analyzer page
  = Normal {| urlInput := urlInput page; resultText := resultText page;
              resultTextColor := resultTextColor page;
              resultBorder := resultBorder page;
              resultBackground := resultBackground page;
              resultHidden := resultHidden page;
              resultDetails := resultDetails page;
              alerts := alerts page ++ ["Please enter a URL."] |}.
Proof.
  intros Hblank%trim_blank_iff. unfold onSubmit. by rewrite Hblank.
Qed.

Lemma onSubmit_shows analyzer page r :
  allChars isWhiteSpace (urlInput page) = false ->
  analyzer (trim (urlInput page)) = Normal r ->
  onSubmit analyzer page
  = Normal {| urlInput := urlInput page;
              resultText := verdictText (verdict r);
              resultTextColor := (paint (verdict r)).1.1;
              resultBorder := (paint (verdict r)).1.2;
              resultBackground := (paint (verdict r)).2;
              resultHidden := false;
              resultDetails :=
                Some (writeDetails (resultDetails page) (detailsText (reasons r)));
              alerts := alerts page |}.
Proof.
  intros Hsome Hr. unfold onSubmit.
  destruct (String.eqb_spec (trim (urlInput page)) EmptyString) as [Hnil|_].
  - apply trim_blank_iff in Hnil. congruence.
  - rewrite Hr. simpl. by destruct (verdict r).
Qed.

Lemma startsWith_join_N l :
  Forall (fun reason => Js.startsWith reason "N" = false) l ->
  l <> [] -> Js.startsWith (join newline l) "N" = false.
Proof.
  intros Hall Hne. destruct Hall as [|x l Hx _]; [done|]. clear Hne.
  destruct l as [|y l]; [done|]. cbn [join].
  destruct x as [|c x]; [done|].
  by change (Js.startsWith (String c x) "N" = false).
Qed.

Lemma reasons_never_start_with_N URL cfg url r :
  analyze URL cfg url = Normal r ->
  Forall (fun reason => Js.startsWith reason "N" = false) (reasons r).
Proof.
  rewrite analyze_unfold. set (p := fun reason => Js.startsWith reason "N").
  assert (forall l, List.filter p l = [] -> Forall (fun reason => p reason = false) l)
    as Hfilter.
  { induction l as [|x l IH]; simpl; [constructor|].
    destruct (p x) eqn:Hx; [done|]. constructor; auto. }
  destruct (getHostname URL url) as [[|c h]|]; simpl; intros [= <-]; simpl;
    apply Hfilter; rewrite map_app, List.filter_app, filter_when by done; try done.
  rewrite (filter_contributions p) by (done || by repeat constructor). done.
Qed.

(** X20: the page says that no suspicious pattern was detected only when the
    verdict it shows is Safe, in green, and the result has no reason. *)
Theorem no_patterns_message_means_safe URL cfg page :
  allChars isWhiteSpace (urlInput page) = false ->
  exists page' r details,
    onSubmit (analyze URL cfg) page = Normal page'
    /\ analyze URL cfg (trim (urlInput page)) = Normal r
    /\ resultHidden page' = false
    /\ alerts page' = alerts page
    /\ resultDetails page' = Some details
    /\ (textContent details = noPatterns ->
        reasons r = [] /\ resultText page' = "Safe" /\ resultTextColor page' = "green").
Proof.
  intros Hsome.
  destruct (analyze_returns URL cfg (trim (urlInput page))) as [r Hr].
  eexists _, r, _. split; [by apply onSubmit_shows|]. split; [done|]. simpl.
  do 3 (split; [done|]).
  assert (textContent (writeDetails (resultDetails page) (detailsText (reasons r)))
          = detailsText (reasons r)) as ->.
  { by destruct (resultDetails page). }
  intros Htext.
  assert (reasons r = []) as Hnone.
  { destruct (reasons r) as [|x l] eqn:Hreasons; [done|].
    pose proof (reasons_never_start_with_N _ _ _ _ Hr) as Hall. rewrite Hreasons in Hall.
    apply startsWith_join_N in Hall; [|done].
    unfold detailsText in Htext. by rewrite Htext in Hall. }
  split; [done|].
  assert (verdict r = Safe) as ->; [|done].
  revert Hr Hnone. rewrite analyze_unfold.
  destruct (getHostname URL (trim (urlInput page))) as [[|c h]|]; simpl;
    intros [= <-]; simpl.
  1,3: by destruct (badFormat _).
  set (cs := _ ++ _). intros Hnone. by destruct cs.
Qed.

(** X21: submitting the same input again leaves the page as the first run
    made it. *)
Theorem submit_twice_same_page URL cfg page :
  allChars isWhiteSpace (urlInput page) = false ->
  exists page',
    onSubmit (analyze URL cfg) page = Normal page'
    /\ onSubmit (analyze URL cfg) page' = Normal page'.
Proof.
  intros Hsome.
  destruct (analyze_returns URL cfg (trim (urlInput page))) as [r Hr].
  eexists. split; [by apply onSubmit_shows|].
  erewrite onSubmit_shows; [|done|done]. simpl. do 2 f_equal.
  by destruct (resultDetails page).
Qed.

End Listener.

Lemma blank_input_only_alerts_witness :
  Dom.onSubmit analyzeURL (freshPage "   ")
  = Normal {| Dom.urlInput := "   "; Dom.resultText := EmptyString;
              Dom.resultTextColor := EmptyString; Dom.resultBorder := EmptyString;
              Dom.resultBackground := EmptyString; Dom.resultHidden := true;
              Dom.resultDetails := None;
              Dom.alerts := ["Please enter a URL."] |}.
Proof. apply (blank_input_only_alerts analyzeURL (freshPage "   ")). reflexivity. Defined.

Lemma no_patterns_message_means_safe_witness :
  exists page' r details,
    Dom.onSubmit analyzeURL (freshPage " example.com ") = Normal page'
    /\ analyzeURL "example.com" = Normal r
    /\ Dom.resultHidden page' = false
    /\ Dom.alerts page' = []
    /\ Dom.resultDetails page' = Some details
    /\ (Dom.textContent details = Dom.noPatterns ->
        reasons r = [] /\ Dom.resultText page' = "Safe"
        /\ Dom.resultTextColor page' = "green").
Proof.
  apply (no_patterns_message_means_safe Url.hostname defaultConfig
           (freshPage " example.com ")).
  reflexivity.
Defined.

Lemma submit_twice_same_page_witness :
  exists page',
    Dom.onSubmit analyzeURL (freshPage "http://secure-login.xyz") = Normal page'
    /\ Dom.onSubmit analyzeURL page' = Normal page'.
Proof.
  apply (submit_twice_same_page Url.hostname defaultConfig
           (freshPage "http://secure-login.xyz")).
  reflexivity.
Defined.

(** ** The lines of the details *)

Lemma split_newline s : Js.split s Dom.newline = Js.splitFrom Dom.newline 0 EmptyString s.
Proof. reflexivity. Qed.

Lemma splitFrom_line piece s rest :
  Js.matchCount isNewline s = 0%nat ->
  Js.splitFrom Dom.newline 0 piece (s +:+ rest)
  = Js.splitFrom Dom.newline 0 (piece +:+ s) rest.
Proof.
  revert piece. induction s as [|c s IH]; intros piece.
  - intros _. by rewrite append_nil_r.
  - cbn [Js.matchCount]. intros Hcount. rewrite append_String.
    assert (isNewline c = false) as Hc by (destruct (isNewline c); [done|done]).
    assert (Js.matchCount isNewline s = 0%nat) as Hs by (rewrite Hc in Hcount; done).
    cbn [Js.splitFrom].
    assert (Js.startsWith (String c (s +:+ rest)) Dom.newline = false) as ->.
    { change (Ascii.eqb "010" c && true = false).
      unfold isNewline, Js.isChar in Hc. by rewrite andb_true_r, Ascii.eqb_sym. }
    rewrite (IH _ Hs). by rewrite append_assoc.
Qed.

Lemma splitFrom_break piece rest :
  Js.splitFrom Dom.newline 0 piece (Dom.newline +:+ rest)
  = piece :: Js.splitFrom Dom.newline 0 EmptyString rest.
Proof. reflexivity. Qed.

Lemma join_more sep x y l :
  Dom.join sep (x :: y :: l) = x +:+ sep +:+ Dom.join sep (y :: l).
Proof. reflexivity. Qed.

Lemma split_join l :
  l <> [] -> Forall (fun line => Js.matchCount isNewline line = 0%nat) l ->
  Js.split (Dom.join Dom.newline l) Dom.newline = l.
Proof.
  intros Hne Hall. rewrite split_newline.
  induction Hall as [|x l Hx Hall IH]; [done|]. clear Hne.
  destruct l as [|y l].
  - cbn [Dom.join]. rewrite <- (append_nil_r x) at 1.
    by rewrite splitFrom_line.
  - rewrite join_more, splitFrom_line, splitFrom_break by done.
    by rewrite IH.
Qed.

Lemma one_line_members (f : string -> string) (l : list string) :
  forallb (fun x => (Js.matchCount isNewline (f x) =? 0)%nat) l = true ->
  forall x, In x l -> Js.matchCount isNewline (f x) = 0%nat.
Proof.
  rewrite forallb_forall. intros Hall x Hx. by apply Nat.eqb_eq, Hall.
Qed.

Lemma one_line_contributions url hostname :
  Forall (fun c : contribution => Js.matchCount isNewline c.1 = 0%nat)
    (contributions defaultConfig url hostname).
Proof.
  unfold contributions, pathContributions.
  repeat (apply Forall_app; split);
    try (match goal with
         | |- Forall _ (when ?t _ _) =>
             destruct t; [apply Forall_cons_2; [by vm_compute|]|]; apply Forall_nil_2
         end).
  - unfold tldContribution. destruct (List.find _ _) as [tld|] eqn:Hfind;
      [|apply Forall_nil_2].
    apply find_some in Hfind as [Hin _].
    apply Forall_cons_2; [|apply Forall_nil_2].
    by apply (one_line_members Reason.tld SUSPICIOUS_TLDS).
  - unfold keywordContributions. apply Forall_map, Forall_forall.
    intros kw [Hin _]%list_elem_of_In%filter_In.
    by apply (one_line_members Reason.keyword FRAUD_KEYWORDS).
  - unfold typosquatContribution. destruct (List.find _ _) as [pd|] eqn:Hfind;
      [|apply Forall_nil_2].
    apply find_some in Hfind as [Hin _].
    apply Forall_cons_2; [|apply Forall_nil_2].
    by apply (one_line_members Reason.typosquat POPULAR_DOMAINS).
Qed.

(** X22: with the lists of the script every reason is one line, so that the
    text of the details, split at the line breaks, gives back the reasons of
    the result in their order whenever there is a reason. *)
Theorem details_lines_are_reasons URL page :
  allChars Dom.isWhiteSpace (Dom.urlInput page) = false ->
  exists page' r details,
    Dom.onSubmit (analyze URL defaultConfig) page = Normal page'
    /\ analyze URL defaultConfig (Dom.trim (Dom.urlInput page)) = Normal r
    /\ Dom.resultDetails page' = Some details
    /\ Forall (fun reason => Js.matchCount isNewline reason = 0%nat) (reasons r)
    /\ (reasons r <> [] -> Js.split (Dom.textContent details) Dom.newline = reasons r).
Proof.
  intros Hsome.
  destruct (analyze_returns URL defaultConfig (Dom.trim (Dom.urlInput page))) as [r Hr].
  eexists _, r, _. split; [by apply onSubmit_shows|]. split; [done|]. simpl.
  split; [done|].
  assert (Forall (fun reason => Js.matchCount isNewline reason = 0%nat) (reasons r))
    as Hlines.
  { revert Hr. rewrite analyze_unfold.
    destruct (getHostname URL _) as [[|c h]|]; simpl; intros [= <-]; simpl;
      apply Forall_map, Forall_app; split;
      try (destruct (badFormat _); [apply Forall_cons_2; [by vm_compute|]|];
           apply Forall_nil_2);
      try (apply Forall_cons_2; [by vm_compute|apply Forall_nil_2]).
    apply one_line_contributions. }
  split; [done|]. intros Hne.
  assert (Dom.textContent
            (Dom.writeDetails (Dom.resultDetails page) (Dom.detailsText (reasons r)))
          = Dom.join Dom.newline (reasons r)) as ->.
  { destruct (Dom.resultDetails page); simpl; by destruct (reasons r). }
  by apply split_join.
Qed.

Lemma details_lines_are_reasons_witness :
  exists page' r details,
    Dom.onSubmit analyzeURL (freshPage "http://192.168.1.1/login") = Normal page'
    /\ analyzeURL "http://192.168.1.1/login" = Normal r
    /\ Dom.resultDetails page' = Some details
    /\ Forall (fun reason => Js.matchCount isNewline reason = 0%nat) (reasons r)
    /\ (reasons r <> [] -> Js.split (Dom.textContent details) Dom.newline = reasons r).
Proof.
  apply (details_lines_are_reasons Url.hostname (freshPage "http://192.168.1.1/login")).
  reflexivity.
Defined.
